(** * python-chem: reaction kinetics and molar masses

    A shallow embedding of [chemical_compound.py], [reaction.py] and the
    simulation entry point of [chem_calculator.py].

    - Python [float] is IEEE binary64: the kernel's primitive [float], with
      [+], [-], [*] and the comparisons of [PrimFloat].
    - Python [int] is [Z].
    - Exceptions are values of [exn]; a call that may raise returns a
      [result].
    - A [ChemicalCompound] used as a dictionary key is hashed by object
      identity (the class defines neither [__eq__] nor [__hash__]), so the
      reaction module sees compounds as object identities [objid].
    - A dictionary that the code iterates over ([reactants], [products],
      [composition], the stoichiometry matrix) is an insertion-ordered
      association list; a dictionary or set that is only looked up or whose
      iteration order cannot be observed in the result is a [gmap] / [gset]. *)

From Stdlib Require Import ZArith Floats Ascii String.
From stdpp Require Import gmap strings list fin_maps fin_sets.

Set Warnings "-inexact-float".
Local Open Scope Z_scope.

(** ** Exceptions and the result monad *)

Inductive exn : Set :=
  | ValueError
  | KeyError
  | IndexError
  | OverflowError
  | ZeroDivisionError.

Inductive result (A : Type) : Type :=
  | Ok (a : A)
  | Raise (e : exn).
Arguments Ok {A} a.
Arguments Raise {A} e.

#[global] Instance result_ret : MRet result := fun A a => Ok a.
#[global] Instance result_bind : MBind result := fun A B f m =>
  match m with
  | Ok a => f a
  | Raise e => Raise e
  end.

Definition is_Ok {A} (m : result A) : Prop := exists a, m = Ok a.

(** [for x in l: acc = f acc x], stopping at the first exception. *)
Fixpoint foldM {A B} (f : B -> A -> result B) (b : B) (l : list A) : result B :=
  match l with
  | [] => Ok b
  | a :: l' => b' ← f b a; foldM f b' l'
  end.

(** [d[k]] on a mapping: [KeyError] when the key is absent. *)
Definition getitem {V} (d : gmap positive V) (k : positive) : result V :=
  match d !! k with
  | Some v => Ok v
  | None => Raise KeyError
  end.

(** [l[i]] on a list, for an index [i >= 0]. *)
Definition list_getitem {A} (l : list A) (i : nat) : result A :=
  match l !! i with
  | Some v => Ok v
  | None => Raise IndexError
  end.

(** [l[-1]]. *)
Definition list_last {A} (l : list A) : result A :=
  match last l with
  | Some v => Ok v
  | None => Raise IndexError
  end.

(** ** Floats *)

(** Conversion of an [int] operand in mixed arithmetic: round to nearest,
    ties to even; [OverflowError] ("int too large to convert to float") when
    the rounded value is not finite. *)
Definition float_of_int (z : Z) : result float :=
  match binary_normalize prec emax z 0 false with
  | S754_infinity _ => Raise OverflowError
  | sf => Ok (SF2Prim sf)
  end.

(** [k * x] for an [int] [k] and a [float] [x]. *)
Definition int_mul_float (k : Z) (x : float) : result float :=
  f ← float_of_int k; Ok (f * x)%float.

(** [x * k] for a [float] [x] and an [int] [k]. *)
Definition float_mul_int (x : float) (k : Z) : result float :=
  f ← float_of_int k; Ok (x * f)%float.

(** [max(0.0, x)]: the builtin keeps its first argument unless a later one
    compares greater. *)
Definition max0 (x : float) : float :=
  if (0 <? x)%float then x else 0%float.

(** [x >= 0.0]. *)
Definition nonneg (x : float) : Prop := (0 <=? x)%float = true.

(** ** Insertion-ordered dictionaries *)

Section PyDict.
Context {K V : Type} `{EqDecision K}.

Fixpoint dict_get (k : K) (d : list (K * V)) : option V :=
  match d with
  | [] => None
  | (k', v) :: d' => if decide (k = k') then Some v else dict_get k d'
  end.

(** [d[k] = v]: an existing key keeps its position, a new key goes last. *)
Fixpoint dict_set (k : K) (v : V) (d : list (K * V)) : list (K * V) :=
  match d with
  | [] => [(k, v)]
  | (k', v') :: d' =>
      if decide (k = k') then (k, v) :: d' else (k', v') :: dict_set k v d'
  end.

(** [k in d] *)
Definition dict_mem (k : K) (d : list (K * V)) : bool :=
  match dict_get k d with
  | Some _ => true
  | None => false
  end.

Definition dict_keys (d : list (K * V)) : list K := d.*1.

(** The value of the last pair with key [k] in a list of pairs. *)
Fixpoint last_value (k : K) (items : list (K * V)) : option V :=
  match items with
  | [] => None
  | (k', v) :: rest =>
      match last_value k rest with
      | Some v' => Some v'
      | None => if decide (k = k') then Some v else None
      end
  end.
End PyDict.

Abbreviation objid := positive.

(** [row.get(c, 0.0)] *)
Definition conc_of (row : gmap objid float) (c : objid) : float :=
  default 0%float (row !! c).

(** ** chemical_compound.py

    A [str] is a [string]; its characters are read as the code points
    0..255, on which [\d] is [0-9]. *)

Module chemical_compound.

Definition in_range (lo hi : N) (c : ascii) : bool :=
  let n := N_of_ascii c in (lo <=? n)%N && (n <=? hi)%N.

(** [[A-Z]], [[a-z]] and [\d]. *)
Definition is_upper (c : ascii) : bool := in_range 65 90 c.
Definition is_lower (c : ascii) : bool := in_range 97 122 c.
Definition is_digit (c : ascii) : bool := in_range 48 57 c.

(** A character of a letter category: the ASCII letters, and in the upper
    half 0xAA, 0xB5, 0xBA, 0xC0-0xD6, 0xD8-0xF6, 0xF8-0xFF. *)
Definition char_isalpha (c : ascii) : bool :=
  is_upper c || is_lower c
  || in_range 170 170 c || in_range 181 181 c || in_range 186 186 c
  || in_range 192 214 c || in_range 216 246 c || in_range 248 255 c.

Fixpoint all_chars (p : ascii -> bool) (s : string) : bool :=
  match s with
  | EmptyString => true
  | String c s' => p c && all_chars p s'
  end.

(** [s.isalpha()]: at least one character, and every character a letter. *)
Definition isalpha (s : string) : bool :=
  match s with
  | EmptyString => false
  | _ => all_chars char_isalpha s
  end.

(** The longest prefix of digits: the group [(\d* )]. *)
Fixpoint take_digits (s : string) : string :=
  match s with
  | String c s' => if is_digit c then String c (take_digits s') else EmptyString
  | EmptyString => EmptyString
  end.

(** The match of [([A-Z][a-z]?)(\d* )] at the start of [s], as its two
    groups. *)
Definition match_token (s : string) : option (string * string) :=
  match s with
  | String c s1 =>
      if is_upper c then
        match s1 with
        | String c2 s2 =>
            if is_lower c2
            then Some (String c (String c2 EmptyString), take_digits s2)
            else Some (String c EmptyString, take_digits s1)
        | EmptyString => Some (String c EmptyString, EmptyString)
        end
      else None
  | EmptyString => None
  end.

(** [re.findall]: scan left to right; after a match resume behind it
    ([skip] characters are still covered by the last match), otherwise move
    on by one character. *)
Fixpoint findall_from (skip : nat) (s : string) : list (string * string) :=
  match s with
  | EmptyString => []
  | String _ rest =>
      match skip with
      | S k => findall_from k rest
      | O =>
          match match_token s with
          | Some (element, count) =>
              (element, count)
                :: findall_from (String.length element + String.length count - 1) rest
          | None => findall_from 0 rest
          end
      end
  end.

Definition findall (s : string) : list (string * string) := findall_from 0 s.

Definition digit_value (c : ascii) : Z := Z.of_N (N_of_ascii c) - 48.

(** The value of a string of digits, in base 10. *)
Fixpoint int_of_digits (acc : Z) (s : string) : Z :=
  match s with
  | EmptyString => acc
  | String c s' => int_of_digits (10 * acc + digit_value c) s'
  end.

(** [sys.get_int_max_str_digits()]: the interpreter's default limit on the
    number of digits that [int] converts. *)
Definition int_max_str_digits : Z := 4300.

(** [int(s)] on a string of digits: [ValueError] when the string has more
    digits than the limit, leading zeros included. *)
Definition int_of_str (s : string) : result Z :=
  if int_max_str_digits <? Z.of_nat (String.length s)
  then Raise ValueError
  else Ok (int_of_digits 0 s).

Record ChemicalCompound := {
  formula : string;
  name : string;
  molar_mass : option float;
  composition : list (string * Z)
}.

(** [ChemicalCompound._parse_formula], as the composition it stores; the
    exception of [int(count)] is the exception of the call. *)
Definition _parse_formula (formula : string) : result (list (string * Z)) :=
  let matches := findall formula in
  foldM
    (fun composition '(element, count) =>
       count ← match count with
               | EmptyString => Ok 1
               | _ => int_of_str count
               end;
       Ok (dict_set element count composition))
    [] matches.

(** [ChemicalCompound.__init__]; [name or formula] takes the formula for
    [None] and for the empty string. The constructor raises what
    [_parse_formula] raises. *)
Definition __init__ (formula : string) (name : option string)
    (molar_mass : option float) : result ChemicalCompound :=
  composition ← _parse_formula formula;
  Ok {| formula := formula;
        name := match name with
                | Some (String c n) => String c n
                | _ => formula
                end;
        molar_mass := molar_mass;
        composition := composition |}.

Definition set_molar_mass (self : ChemicalCompound) (m : float) : ChemicalCompound :=
  {| formula := formula self;
     name := name self;
     molar_mass := Some m;
     composition := composition self |}.

Definition atomic_masses : list (string * float) :=
  [ ("H", 1.008); ("He", 4.003); ("Li", 6.94); ("Be", 9.012); ("B", 10.81);
    ("C", 12.01); ("N", 14.01); ("O", 16.00); ("F", 19.00); ("Ne", 20.18);
    ("Na", 22.99); ("Mg", 24.31); ("Al", 26.98); ("Si", 28.09); ("P", 30.97);
    ("S", 32.06); ("Cl", 35.45); ("Ar", 39.95); ("K", 39.10); ("Ca", 40.08);
    ("I", 126.90) ]%string%float.

(** The body of [for element, count in self.composition.items()]. *)
Definition add_element_mass (total_mass : float) (item : string * Z)
    : result float :=
  let '(element, count) := item in
  match dict_get element atomic_masses with
  | Some m => t ← float_mul_int m count; Ok (total_mass + t)%float
  | None =>
      if isalpha element
      then t ← float_mul_int 100 count; Ok (total_mass + t)%float
      else Raise ValueError
  end.

(** The test that guards the default mass of a generic compound. *)
Definition is_generic (composition : list (string * Z)) : bool :=
  (length composition =? 1)%nat
  && match dict_keys composition with
     | element :: _ =>
         (String.length element =? 1)%nat
         && negb (dict_mem element atomic_masses)
         && isalpha element
     | [] => false
     end.

(** [ChemicalCompound.calculate_molar_mass]: the returned mass and the
    object after the call. An exception leaves the object unchanged. *)
Definition calculate_molar_mass (self : ChemicalCompound)
    : result (float * ChemicalCompound) :=
  match molar_mass self with
  | Some m => Ok (m, self)
  | None =>
      if is_generic (composition self)
      then Ok (100%float, set_molar_mass self 100)
      else
        total_mass ← foldM add_element_mass 0%float (composition self);
        Ok (total_mass, set_molar_mass self total_mass)
  end.

End chemical_compound.

(** ** reaction.py *)

Module reaction.

Record Reaction := {
  reactants : list (objid * Z);
  products : list (objid * Z);
  rate_constant : float;
  reaction_order : Z
}.

Record ReactionSystem := {
  reactions : list Reaction;
  all_compounds : gset objid
}.

(** [Reaction.get_stoichiometry_matrix] *)
Definition get_stoichiometry_matrix (self : Reaction) : list (objid * Z) :=
  let stoichiometry := [] in
  let stoichiometry :=
    fold_left (fun st '(compound, coeff) => dict_set compound (- coeff) st)
              (reactants self) stoichiometry in
  fold_left (fun st '(compound, coeff) => dict_set compound coeff st)
            (products self) stoichiometry.

(** [ReactionSystem.__init__] *)
Definition ReactionSystem_init (rs : list Reaction) : ReactionSystem :=
  {| reactions := rs;
     all_compounds :=
       fold_left (fun s reaction =>
                    s ∪ list_to_set (dict_keys (reactants reaction))
                      ∪ list_to_set (dict_keys (products reaction)))
                 rs ∅ |}.

Section WithPow.
(** The C library's [pow] as the interpreter wraps it for [float ** float]:
    it returns a float, or raises [OverflowError] (result out of range) or
    [ZeroDivisionError] (zero to a negative power). *)
Variable libm_pow : float -> float -> result float.

(** [x ** n] for a [float] [x] and an [int] [n]: the exponent is converted
    to a float first. *)
Definition float_pow_int (x : float) (n : Z) : result float :=
  w ← float_of_int n; libm_pow x w.

(** The loop of [Reaction.calculate_rate]. *)
Fixpoint calculate_rate_loop (items : list (objid * Z))
    (concentrations : gmap objid float) (rate : float) : result float :=
  match items with
  | [] => Ok rate
  | (compound, coeff) :: rest =>
      match concentrations !! compound with
      | Some concentration =>
          p ← float_pow_int concentration coeff;
          calculate_rate_loop rest concentrations (rate * p)%float
      | None => Ok 0%float
      end
  end.

(** [Reaction.calculate_rate] *)
Definition calculate_rate (self : Reaction)
    (concentrations : gmap objid float) : result float :=
  calculate_rate_loop (reactants self) concentrations (rate_constant self).

(** [rate_changes[compound] += stoich_coeff * reaction_rate], for every
    entry of one reaction's stoichiometry matrix. *)
Definition add_rate_changes (reaction_rate : float)
    (rate_changes : gmap objid float) (item : objid * Z)
    : result (gmap objid float) :=
  let '(compound, stoich_coeff) := item in
  old ← getitem rate_changes compound;
  t ← int_mul_float stoich_coeff reaction_rate;
  Ok (<[compound := (old + t)%float]> rate_changes).

(** The body of [for reaction in self.reactions]. *)
Definition accumulate_reaction (current_conc : gmap objid float)
    (rate_changes : gmap objid float) (reaction : Reaction)
    : result (gmap objid float) :=
  reaction_rate ← calculate_rate reaction current_conc;
  let stoichiometry := get_stoichiometry_matrix reaction in
  foldM (add_rate_changes reaction_rate) rate_changes stoichiometry.

(** [{compound: f(compound) for compound in keys}] *)
Definition dict_comprehension {V} (keys : list objid) (f : objid -> result V)
    : result (gmap objid V) :=
  foldM (fun d k => v ← f k; Ok (<[k := v]> d)) ∅ keys.

(** The body of [for compound in self.all_compounds] that appends the new
    concentration. *)
Definition append_new_conc (current_conc rate_changes : gmap objid float)
    (dt : float) (concentrations : gmap objid (list float)) (compound : objid)
    : result (gmap objid (list float)) :=
  cur ← getitem current_conc compound;
  rc ← getitem rate_changes compound;
  let new_conc := (cur + rc * dt)%float in
  let new_conc := max0 new_conc in
  l ← getitem concentrations compound;
  Ok (<[compound := l ++ [new_conc]]> concentrations).

(** The body of [for i in range(1, len(time_points))]. *)
Definition simulate_step (self : ReactionSystem) (time_points : list float)
    (concentrations : gmap objid (list float)) (i : nat)
    : result (gmap objid (list float)) :=
  t_i ← list_getitem time_points i;
  t_prev ← list_getitem time_points (i - 1);
  let dt := (t_i - t_prev)%float in
  current_conc ←
    dict_comprehension (elements (all_compounds self))
      (fun compound => l ← getitem concentrations compound; list_last l);
  let rate_changes := gset_to_gmap 0%float (all_compounds self) in
  rate_changes ←
    foldM (accumulate_reaction current_conc) rate_changes (reactions self);
  foldM (append_new_conc current_conc rate_changes dt) concentrations
        (elements (all_compounds self)).

(** [ReactionSystem.simulate] *)
Definition simulate (self : ReactionSystem)
    (initial_concentrations : gmap objid float) (time_points : list float)
    : result (gmap objid (list float)) :=
  let concentrations : gmap objid (list float) :=
    set_to_map (fun compound =>
                  (compound, [default 0%float (initial_concentrations !! compound)]))
               (all_compounds self) in
  foldM (simulate_step self time_points) concentrations
        (seq 1 (length time_points - 1)).
End WithPow.

End reaction.

(** ** chem_calculator.py: the simulation entry point *)

Module chem_calculator.

(** An entry of [self.compounds]: the compound object and its initial
    concentration. *)
Record entry := {
  compound : objid;
  concentration : float
}.

Record ChemicalCalculator := {
  compounds : list (string * entry);
  reactions : list reaction.Reaction
}.

Section WithNumerics.
Variable libm_pow : float -> float -> result float.
(** [np.linspace(0, time_end, time_steps).tolist()] *)
Variable np_linspace : float -> Z -> result (list float).

(** [ChemicalCalculator.simulate_reactions] *)
Definition simulate_reactions (self : ChemicalCalculator) (time_end : float)
    (time_steps : Z) : result (list float * gmap objid (list float)) :=
  match reactions self with
  | [] => Raise ValueError
  | _ =>
      time_points ← np_linspace time_end time_steps;
      let initial_concentrations : gmap objid float :=
        fold_left (fun d '(_, data) => <[compound data := concentration data]> d)
                  (compounds self) ∅ in
      let reaction_system := reaction.ReactionSystem_init (reactions self) in
      results ←
        reaction.simulate libm_pow reaction_system initial_concentrations
                          time_points;
      Ok (time_points, results)
  end.
End WithNumerics.

(** The calculator and the compound objects it refers to. A new
    [ChemicalCompound] gets an identity that no existing object has. *)
Record State := {
  objects : gmap objid chemical_compound.ChemicalCompound;
  calculator : ChemicalCalculator
}.

(** [ChemicalCalculator.__init__] *)
Definition __init__ : ChemicalCalculator :=
  {| compounds := []; reactions := [] |}.

Definition set_compounds (st : State) (o : objid)
    (obj : chemical_compound.ChemicalCompound)
    (compounds' : list (string * entry)) : State :=
  {| objects := <[o := obj]> (objects st);
     calculator := {| compounds := compounds';
                      reactions := reactions (calculator st) |} |}.

(** [ChemicalCalculator.add_compound]: the returned compound and the state
    after the call. An exception of the constructor or of
    [calculate_molar_mass] comes before the registry is touched. *)
Definition add_compound (formula : string) (name : option string)
    (concentration : float) (st : State) : result objid * State :=
  let o := fresh (dom (objects st)) in
  match chemical_compound.__init__ formula name None with
  | Raise e => (Raise e, st)
  | Ok compound =>
      match chemical_compound.calculate_molar_mass compound with
      | Raise e => (Raise e, st)
      | Ok (_, compound) =>
          (Ok o,
           set_compounds st o compound
             (dict_set formula
                       {| compound := o; concentration := concentration |}
                       (compounds (calculator st))))
      end
  end.

(** [if formula not in self.compounds: self.add_compound(formula)] *)
Definition ensure_compound (formula : string) (st : State)
    : result unit * State :=
  if dict_mem formula (compounds (calculator st))
  then (Ok tt, st)
  else let '(r, st) := add_compound formula None 0 st in
       (r ≫= fun _ => Ok tt, st).

(** One of the two loops of [add_reaction], over the zipped formulas and
    coefficients: the dictionary built so far and the state. *)
Fixpoint build_side (items : list (string * Z)) (side : list (objid * Z))
    (st : State) : result (list (objid * Z)) * State :=
  match items with
  | [] => (Ok side, st)
  | (formula, coeff) :: rest =>
      let '(r, st) := ensure_compound formula st in
      match r with
      | Raise e => (Raise e, st)
      | Ok _ =>
          match dict_get formula (compounds (calculator st)) with
          | None => (Raise KeyError, st)
          | Some data => build_side rest (dict_set (compound data) coeff side) st
          end
      end
  end.

(** [ChemicalCalculator.add_reaction]: the returned reaction and the state
    after the call, also when the call raises. *)
Definition add_reaction (reactant_formulas : list string)
    (reactant_coeffs : list Z) (product_formulas : list string)
    (product_coeffs : list Z) (rate_constant : float) (st : State)
    : result reaction.Reaction * State :=
  let '(r, st) := build_side (zip reactant_formulas reactant_coeffs) [] st in
  match r with
  | Raise e => (Raise e, st)
  | Ok reactants =>
      let '(r, st) := build_side (zip product_formulas product_coeffs) [] st in
      match r with
      | Raise e => (Raise e, st)
      | Ok products =>
          let reaction :=
            {| reaction.reactants := reactants;
               reaction.products := products;
               reaction.rate_constant := rate_constant;
               reaction.reaction_order := 1 |} in
          (Ok reaction,
           {| objects := objects st;
              calculator :=
                {| compounds := compounds (calculator st);
                   reactions := reactions (calculator st) ++ [reaction] |} |})
      end
  end.

End chem_calculator.

(** ** The rows of a simulation

    The state of [simulate] after each time point as a function of the
    state before it, the concentrations of all compounds forming one row.
    The trajectories that [simulate] returns are the columns of these rows
    (lemma [simulate_rows]). *)

Module trace.
Import reaction.

Section WithPow.
Variable libm_pow : float -> float -> result float.

(** The entry of [c] in the stoichiometry matrix of [r]. *)
Definition matrix_entry (r : Reaction) (c : objid) : option Z :=
  dict_get c (get_stoichiometry_matrix r).

(** [rate_changes[c]] after the loop over the reactions [rs], when it is
    [acc] before. *)
Fixpoint rate_change (rs : list Reaction) (prev : gmap objid float) (c : objid)
    (acc : float) : result float :=
  match rs with
  | [] => Ok acc
  | r :: rs' =>
      rate ← calculate_rate libm_pow r prev;
      match matrix_entry r c with
      | Some k => t ← int_mul_float k rate; rate_change rs' prev c (acc + t)%float
      | None => rate_change rs' prev c acc
      end
  end.

(** The concentration appended for [c]. *)
Definition next_conc (sys : ReactionSystem) (prev : gmap objid float)
    (dt : float) (c : objid) : result float :=
  s ← rate_change (reactions sys) prev c 0%float;
  Ok (max0 (conc_of prev c + dt * s)%float).

(** The row before the loop. *)
Definition first_row (sys : ReactionSystem) (initial : gmap objid float)
    : gmap objid float :=
  set_to_map (fun c => (c, conc_of initial c)) (all_compounds sys).

Definition next_row (sys : ReactionSystem) (prev : gmap objid float)
    (dt : float) : result (gmap objid float) :=
  dict_comprehension (elements (all_compounds sys)) (next_conc sys prev dt).

(** The rows for the time points after [t_prev]. *)
Fixpoint later_rows (sys : ReactionSystem) (prev : gmap objid float)
    (t_prev : float) (ts : list float) : result (list (gmap objid float)) :=
  match ts with
  | [] => Ok []
  | t :: ts' =>
      row ← next_row sys prev (t - t_prev)%float;
      rows ← later_rows sys row t ts';
      Ok (row :: rows)
  end.

(** The trajectory of every compound, read off the rows. *)
Definition columns (sys : ReactionSystem) (rows : list (gmap objid float))
    : gmap objid (list float) :=
  set_to_map (fun c => (c, (fun row => conc_of row c) <$> rows))
             (all_compounds sys).
End WithPow.

End trace.

(** ** Reference definitions, after the specification *)

Module spec.
Import reaction.

Section WithPow.
Variable libm_pow : float -> float -> result float.

(** The rate law [rate_constant * Π concentration[reactant]^coefficient],
    the factors taken in the order of the reactants mapping. *)
Fixpoint rate_law_product (items : list (objid * Z))
    (concentration : objid -> float) (acc : float) : result float :=
  match items with
  | [] => Ok acc
  | (reactant, coefficient) :: rest =>
      p ← float_pow_int libm_pow (concentration reactant) coefficient;
      rate_law_product rest concentration (acc * p)%float
  end.

Definition rate_law (r : Reaction) (concentration : objid -> float)
    : result float :=
  rate_law_product (reactants r) concentration (rate_constant r).

(** The net stoichiometric coefficient of [c] in [r]: the coefficient of
    [c] among the products when [c] is a product, otherwise minus its
    coefficient among the reactants; [None] when the reaction does not
    touch [c]. *)
Definition net_coefficient (r : Reaction) (c : objid) : option Z :=
  match dict_get c (products r) with
  | Some k => Some k
  | None => Z.opp <$> dict_get c (reactants r)
  end.

(** The sum, over the reactions that touch [c], in their order and starting
    from [acc], of (net coefficient of [c]) * (rate of the reaction at the
    concentrations [conc]). *)
Fixpoint net_rate (rs : list Reaction) (conc : objid -> float) (c : objid)
    (acc : float) : result float :=
  match rs with
  | [] => Ok acc
  | r :: rs' =>
      match net_coefficient r c with
      | Some k =>
          rate ← rate_law r conc;
          t ← int_mul_float k rate;
          net_rate rs' conc c (acc + t)%float
      | None => net_rate rs' conc c acc
      end
  end.

(** The compounds of a system: the reactants and the products of its
    reactions. *)
Definition compounds_of (rs : list Reaction) : gset objid :=
  list_to_set
    (mjoin ((fun r => dict_keys (reactants r) ++ dict_keys (products r))
              <$> rs)).

(** [conc[c][i] = max(0.0, conc[c][i-1] + dt * sum)] *)
Definition euler_next (rs : list Reaction) (prev : gmap objid float)
    (dt : float) (c : objid) : result float :=
  s ← net_rate rs (conc_of prev) c 0%float;
  Ok (max0 (conc_of prev c + dt * s)%float).

(** [conc[c][0] = initial_concentrations.get(c, 0.0)] *)
Definition euler_row0 (rs : list Reaction) (initial : gmap objid float)
    : gmap objid float :=
  set_to_map (fun c => (c, conc_of initial c)) (compounds_of rs).

(** The row after [prev]: [euler_next] for every compound of the system. *)
Definition euler_step (rs : list Reaction) (prev : gmap objid float)
    (dt : float) : result (gmap objid float) :=
  foldM (fun row c => x ← euler_next rs prev dt c; Ok (<[c := x]> row))
        ∅ (elements (compounds_of rs)).

(** The rows for the time points after [t_prev]. *)
Fixpoint euler_rows (rs : list Reaction) (prev : gmap objid float)
    (t_prev : float) (ts : list float) : result (list (gmap objid float)) :=
  match ts with
  | [] => Ok []
  | t :: ts' =>
      row ← euler_step rs prev (t - t_prev)%float;
      rows ← euler_rows rs row t ts';
      Ok (row :: rows)
  end.

(** The trajectory of every compound, read off the rows. *)
Definition trajectories (rs : list Reaction) (rows : list (gmap objid float))
    : gmap objid (list float) :=
  set_to_map (fun c => (c, (fun row => conc_of row c) <$> rows))
             (compounds_of rs).

(** The forward-Euler reference: defined when every power and every
    conversion of a coefficient to a float is. *)
Definition euler_reference (rs : list Reaction)
    (initial : gmap objid float) (time_points : list float)
    : result (gmap objid (list float)) :=
  let row0 := euler_row0 rs initial in
  rows ← match time_points with
         | [] => Ok []
         | t0 :: ts => euler_rows rs row0 t0 ts
         end;
  Ok (trajectories rs (row0 :: rows)).
End WithPow.


(** The same reaction with another [reaction_order]. *)
Definition with_reaction_order (n : Z) (r : Reaction) : Reaction :=
  {| reactants := reactants r;
     products := products r;
     rate_constant := rate_constant r;
     reaction_order := n |}.

(** The concentrations at time index [i], read off the trajectories. *)
Definition state_at (res : gmap objid (list float)) (i : nat)
    : gmap objid float :=
  omap (fun traj : list float => traj !! i) res.

(** The calculator's registry and the objects agree: the registry is a
    dictionary; every entry refers to an existing compound object of that
    formula whose molar mass has been computed; the reactions are built
    from existing compound objects and their sides are dictionaries. *)
Definition registry_wf (st : chem_calculator.State) : Prop :=
  NoDup (dict_keys (chem_calculator.compounds (chem_calculator.calculator st)))
  /\ (forall f e,
        dict_get f (chem_calculator.compounds (chem_calculator.calculator st))
        = Some e ->
        exists obj,
          chem_calculator.objects st !! chem_calculator.compound e = Some obj
          /\ chemical_compound.formula obj = f
          /\ is_Some (chemical_compound.molar_mass obj))
  /\ (forall r,
        r ∈ chem_calculator.reactions (chem_calculator.calculator st) ->
        NoDup (dict_keys (reactants r))
        /\ NoDup (dict_keys (products r))
        /\ forall c, c ∈ dict_keys (reactants r) \/ c ∈ dict_keys (products r) ->
                     c ∈ dom (chem_calculator.objects st)).

(** What a call may change in the state: the reactions stay, no object
    disappears, the entries of the registry stay as they are, and a new
    entry is for one of the formulas [fs] and has concentration 0.0. *)
Definition registry_extends (fs : list string)
    (st st' : chem_calculator.State) : Prop :=
  chem_calculator.reactions (chem_calculator.calculator st')
  = chem_calculator.reactions (chem_calculator.calculator st)
  /\ dom (chem_calculator.objects st) ⊆ dom (chem_calculator.objects st')
  /\ (forall f e,
        dict_get f (chem_calculator.compounds (chem_calculator.calculator st))
        = Some e ->
        dict_get f (chem_calculator.compounds (chem_calculator.calculator st'))
        = Some e)
  /\ (forall f e,
        dict_get f (chem_calculator.compounds (chem_calculator.calculator st'))
        = Some e ->
        dict_get f (chem_calculator.compounds (chem_calculator.calculator st))
        = None ->
        chem_calculator.concentration e = 0%float /\ f ∈ fs).

(** Every compound of every reaction is in [all_compounds]. *)
Definition closed_system (sys : ReactionSystem) : Prop :=
  forall r c, r ∈ reactions sys ->
              c ∈ dict_keys (get_stoichiometry_matrix r) ->
              c ∈ all_compounds sys.

(** Every value of a computed row went through the clamp. *)
Definition clamped_row (sys : ReactionSystem) (row : gmap objid float) : Prop :=
  forall c, c ∈ all_compounds sys -> exists x, row !! c = Some (max0 x).

(** The number of uppercase letters of a string. *)
Fixpoint count_upper (s : string) : nat :=
  match s with
  | EmptyString => 0
  | String c s' =>
      (if chemical_compound.is_upper c then 1 else 0) + count_upper s'
  end.

(** None of the first [n] characters is an uppercase letter. *)
Fixpoint no_upper_in_first (n : nat) (s : string) : bool :=
  match n, s with
  | S k, String c s' => negb (chemical_compound.is_upper c) && no_upper_in_first k s'
  | _, _ => true
  end.

(** The count of a token: [int(count) if count else 1]. *)
Definition token_count (count : string) : Z :=
  match count with
  | EmptyString => 1
  | _ => chemical_compound.int_of_digits 0 count
  end.

(** The composition that a list of tokens gives: every token stores its
    count under its element. *)
Definition composition_of (tokens : list (string * string))
    : list (string * Z) :=
  fold_left (fun composition '(element, count) =>
               dict_set element (token_count count) composition)
            tokens [].

(** A count with more digits than [int] converts. *)
Definition long_count (count : string) : bool :=
  chemical_compound.int_max_str_digits <? Z.of_nat (String.length count).

(** Some token of the formula has such a count. *)
Definition has_long_count (formula : string) : bool :=
  existsb (fun m : string * string => long_count m.2)
          (chemical_compound.findall formula).

(** The shape of an element token: one uppercase letter, then at most one
    lowercase letter. *)
Definition token_shape (element : string) : Prop :=
  exists c, chemical_compound.is_upper c = true
            /\ (element = String c EmptyString
                \/ exists c2, chemical_compound.is_lower c2 = true
                              /\ element = String c (String c2 EmptyString)).

End spec.

(** ** Instances used to run the model on examples *)

Module examples.
Import reaction.

(** A power by repeated multiplication for the exponents 0 to 3; other
    exponents are outside this instance. *)
Definition pow_small (x w : float) : result float :=
  if (w =? 0)%float then Ok 1%float
  else if (w =? 1)%float then Ok x
  else if (w =? 2)%float then Ok (x * x)%float
  else if (w =? 3)%float then Ok (x * x * x)%float
  else Raise OverflowError.

(** Evenly spaced points from 0 to [time_end]; the last point is
    [time_end] itself. *)
Definition linspace_small (time_end : float) (time_steps : Z)
    : result (list float) :=
  if time_steps <? 0 then Raise ValueError
  else
    match float_of_int (time_steps - 1) with
    | Ok d =>
        Ok (map (fun i =>
                   if (Z.of_nat i =? time_steps - 1)%Z then time_end
                   else match float_of_int (Z.of_nat i) with
                        | Ok fi => (fi * (time_end / d))%float
                        | Raise _ => time_end
                        end)
                (seq 0 (Z.to_nat time_steps)))
    | Raise e => Raise e
    end.

Definition A : objid := 1%positive.
Definition B : objid := 2%positive.
Definition C : objid := 3%positive.

(** A + B -> C with k = 0.1 *)
Definition a_plus_b : Reaction :=
  {| reactants := [(A, 1); (B, 1)];
     products := [(C, 1)];
     rate_constant := 0.1;
     reaction_order := 1 |}.

Definition initial_ab : gmap objid float :=
  <[A := 1%float]> (<[B := 0.5%float]> (<[C := 0%float]> ∅)).

(** 2A + B -> 3A + C: [A] is on both sides. *)
Definition both_sides : Reaction :=
  {| reactants := [(A, 2); (B, 1)];
     products := [(A, 3); (C, 1)];
     rate_constant := 1;
     reaction_order := 1 |}.

(** A reactant whose coefficient does not fit a float, listed before an
    absent one. *)
Definition huge_coefficient : Reaction :=
  {| reactants := [(A, 10 ^ 400); (B, 1)];
     products := [(C, 1)];
     rate_constant := 1;
     reaction_order := 1 |}.

Definition system_ab : ReactionSystem := ReactionSystem_init [a_plus_b].

Definition trajectory_of (r : result (gmap objid (list float))) (c : objid)
    : option (list float) :=
  match r with
  | Ok res => res !! c
  | Raise _ => None
  end.

Definition initial_negative : gmap objid float :=
  <[A := (-1)%float]> (<[B := 0.5%float]> ∅).

Definition D : objid := 4%positive.

Definition calculator_without_reactions : chem_calculator.ChemicalCalculator :=
  {| chem_calculator.compounds :=
       [("A"%string, {| chem_calculator.compound := A;
                        chem_calculator.concentration := 1 |})];
     chem_calculator.reactions := [] |}.

Definition calculator_ab : chem_calculator.ChemicalCalculator :=
  {| chem_calculator.compounds :=
       [("A"%string, {| chem_calculator.compound := A;
                        chem_calculator.concentration := 1 |});
        ("B"%string, {| chem_calculator.compound := B;
                        chem_calculator.concentration := 0.5 |});
        ("C"%string, {| chem_calculator.compound := C;
                        chem_calculator.concentration := 0 |})];
     chem_calculator.reactions := [a_plus_b] |}.

(** The default example of [main]: three compounds, then A + B -> C. *)
Definition new_state : chem_calculator.State :=
  {| chem_calculator.objects := ∅;
     chem_calculator.calculator := chem_calculator.__init__ |}.

Definition main_compounds : chem_calculator.State :=
  let st := (chem_calculator.add_compound "A" (Some "Reactant A"%string) 1
               new_state).2 in
  let st := (chem_calculator.add_compound "B" (Some "Reactant B"%string) 0.5
               st).2 in
  (chem_calculator.add_compound "C" (Some "Product C"%string) 0 st).2.

Definition main_default : result Reaction * chem_calculator.State :=
  chem_calculator.add_reaction ["A"; "B"]%string [1; 1] ["C"]%string [1] 0.1
                               main_compounds.

(** "A" added once more, after the reaction. *)
Definition main_readded : result objid * chem_calculator.State :=
  chem_calculator.add_compound "A" None 2 main_default.2.

Definition mass_of (r : result (float * chemical_compound.ChemicalCompound)) : option float :=
  match r with
  | Ok (m, _) => Some m
  | Raise _ => None
  end.

(** "A" followed by 4301 nines: a count with more digits than [int]
    converts. *)
Definition long_count_formula : string :=
  String "A"%char (string_of_list_ascii (repeat "9"%char 4301)).

(** "H" followed by 309 nines: a count above the largest float. *)
Definition huge_count_formula : string :=
  String "H"%char (string_of_list_ascii (repeat "9"%char 309)).

End examples.

(** * Properties *)

(** ** Floats *)

Lemma ltb_leb (x y : float) : (x <? y)%float = true -> (x <=? y)%float = true.
Proof.
  rewrite ltb_spec, leb_spec. unfold SFltb, SFleb.
  destruct (SFcompare _ _) as [[]|]; auto; discriminate.
Qed.

Lemma max0_nonneg (x : float) : nonneg (max0 x).
Proof.
  unfold nonneg, max0. destruct (0 <? x)%float eqn:E.
  - by apply ltb_leb.
  - reflexivity.
Qed.

Lemma SFmul_comm (p e : Z) (x y : spec_float) : SFmul p e x y = SFmul p e y x.
Proof.
  destruct x as [sx|sx| |sx mx ex], y as [sy|sy| |sy my ey]; simpl;
    rewrite ?(xorb_comm sx sy); try reflexivity.
  by rewrite (Pos.mul_comm mx my), (Z.add_comm ex ey).
Qed.

Lemma float_mul_comm (x y : float) : (x * y)%float = (y * x)%float.
Proof.
  apply Prim2SF_inj. rewrite !mul_spec. apply SFmul_comm.
Qed.

Lemma float_of_int_Raise (z : Z) (e : exn) :
  float_of_int z = Raise e -> e = OverflowError.
Proof.
  unfold float_of_int.
  destruct (binary_normalize prec emax z 0 false); congruence.
Qed.

Lemma float_mul_int_Raise (x : float) (k : Z) (e : exn) :
  float_mul_int x k = Raise e ->
  e = OverflowError /\ float_of_int k = Raise OverflowError.
Proof.
  unfold float_mul_int. destruct (float_of_int k) as [f|e'] eqn:Hk; [done|].
  simpl. intros [= ->]. by pose proof (float_of_int_Raise _ _ Hk) as ->.
Qed.

(** ** The result monad *)

Lemma bind_Ok {A B} (m : result A) (f : A -> result B) (b : B) :
  m ≫= f = Ok b <-> exists a, m = Ok a /\ f a = Ok b.
Proof.
  destruct m as [a|e]; simpl.
  - split; [eauto|]. by intros (a' & [= ->] & ?).
  - split; [done|]. by intros (? & ? & ?).
Qed.

Lemma foldM_ext {A B} (f g : B -> A -> result B) (b : B) (l : list A) :
  (forall b a, f b a = g b a) -> foldM f b l = foldM g b l.
Proof.
  intros Hfg. revert b. induction l as [|a l IH]; intros b; simpl; [done|].
  rewrite Hfg. destruct (g b a); simpl; auto.
Qed.

Lemma foldM_fmap {A A' B} (h : A' -> A) (f : B -> A -> result B) (b : B)
    (l : list A') :
  foldM f b (h <$> l) = foldM (fun b a => f b (h a)) b l.
Proof.
  revert b. induction l as [|a l IH]; intros b; simpl; [done|].
  destruct (f b (h a)); simpl; auto.
Qed.

(** ** Insertion-ordered dictionaries *)

Section PyDictFacts.
Context {K V : Type} `{EqDecision K}.
Implicit Types (d : list (K * V)) (k : K) (v : V).

Lemma dict_get_set_eq d k v : dict_get k (dict_set k v d) = Some v.
Proof.
  induction d as [|[k' v'] d IH]; simpl.
  - by rewrite decide_True.
  - destruct (decide (k = k')) as [->|Hne]; simpl.
    + by rewrite decide_True.
    + by rewrite decide_False.
Qed.

Lemma dict_get_set_ne d k k' v :
  k <> k' -> dict_get k' (dict_set k v d) = dict_get k' d.
Proof.
  intros Hne. induction d as [|[k0 v0] d IH]; simpl.
  - by rewrite decide_False.
  - destruct (decide (k = k0)) as [->|Hne0]; simpl.
    + by rewrite !decide_False.
    + destruct (decide (k' = k0)); auto.
Qed.

Lemma dict_set_keys d k k' v :
  k' ∈ (dict_set k v d).*1 <-> k' = k \/ k' ∈ d.*1.
Proof.
  induction d as [|[k0 v0] d IH]; simpl.
  - rewrite list_elem_of_singleton. split; [auto|].
    intros [?|Hin]; [done|]. by apply elem_of_nil in Hin.
  - destruct (decide (k = k0)) as [->|Hne]; simpl.
    + rewrite !elem_of_cons. tauto.
    + rewrite !elem_of_cons, IH. tauto.
Qed.

Lemma dict_set_NoDup d k v : NoDup d.*1 -> NoDup (dict_set k v d).*1.
Proof.
  induction d as [|[k0 v0] d IH]; simpl; intros Hnd.
  - apply NoDup_singleton.
  - apply NoDup_cons in Hnd as [Hnotin Hnd].
    destruct (decide (k = k0)) as [->|Hne]; simpl.
    + by apply NoDup_cons.
    + apply NoDup_cons. split; [|auto].
      rewrite dict_set_keys. intros [?|?]; [congruence|done].
Qed.

Lemma dict_get_None d k : dict_get k d = None <-> k ∉ d.*1.
Proof.
  induction d as [|[k0 v0] d IH]; simpl.
  - split; [|done]. intros _. apply not_elem_of_nil.
  - rewrite not_elem_of_cons. destruct (decide (k = k0)); [|tauto].
    split; [done|tauto].
Qed.

Lemma dict_get_Some_keys d k v : dict_get k d = Some v -> k ∈ d.*1.
Proof.
  intros Hget. destruct (decide (k ∈ d.*1)) as [|Hn]; [done|].
  apply dict_get_None in Hn. congruence.
Qed.

(** Storing every item of [items], its value passed through [g]. *)
Lemma fold_set_keys {W} (g : W -> V) (items : list (K * W)) d k :
  k ∈ (fold_left (fun st '(c, w) => dict_set c (g w) st) items d).*1
  <-> k ∈ items.*1 \/ k ∈ d.*1.
Proof.
  revert d. induction items as [|[c w] items IH]; intros d; simpl.
  - split; [auto|]. intros [Hin|?]; [|done]. by apply elem_of_nil in Hin.
  - rewrite IH, dict_set_keys, elem_of_cons. tauto.
Qed.

Lemma fold_set_NoDup {W} (g : W -> V) (items : list (K * W)) d :
  NoDup d.*1 ->
  NoDup (fold_left (fun st '(c, w) => dict_set c (g w) st) items d).*1.
Proof.
  revert d. induction items as [|[c w] items IH]; intros d Hnd; simpl; [done|].
  by apply IH, dict_set_NoDup.
Qed.

Lemma fold_set_get_notin {W} (g : W -> V) (items : list (K * W)) d k :
  k ∉ items.*1 ->
  dict_get k (fold_left (fun st '(c, w) => dict_set c (g w) st) items d)
  = dict_get k d.
Proof.
  revert d. induction items as [|[c w] items IH]; intros d Hn; simpl; [done|].
  simpl in Hn. apply not_elem_of_cons in Hn as [Hne Hn].
  rewrite IH by done. by apply dict_get_set_ne.
Qed.

Lemma fold_set_get_in {W} (g : W -> V) (items : list (K * W)) d k w :
  NoDup items.*1 -> (k, w) ∈ items ->
  dict_get k (fold_left (fun st '(c, w) => dict_set c (g w) st) items d)
  = Some (g w).
Proof.
  revert d. induction items as [|[c w0] items IH]; intros d Hnd Hin; simpl.
  - by apply elem_of_nil in Hin.
  - simpl in Hnd. apply NoDup_cons in Hnd as [Hnotin Hnd].
    apply elem_of_cons in Hin as [[= -> ->]|Hin].
    + rewrite fold_set_get_notin by done. apply dict_get_set_eq.
    + by apply IH.
Qed.
End PyDictFacts.

(** ** More about insertion-ordered dictionaries *)

Section PyDictLast.
Context {K V : Type} `{EqDecision K}.

Lemma fold_set_get_last {W} (g : W -> V) (items : list (K * W))
    (d : list (K * V)) (k : K) :
  dict_get k (fold_left (fun st '(c, w) => dict_set c (g w) st) items d)
  = match last_value k items with
    | Some w => Some (g w)
    | None => dict_get k d
    end.
Proof.
  revert d. induction items as [|[c w] items IH]; intros d; simpl; [done|].
  rewrite IH. destruct (last_value k items) as [w'|]; [done|].
  destruct (decide (k = c)) as [->|Hne].
  - apply dict_get_set_eq.
  - by apply dict_get_set_ne.
Qed.

Lemma last_value_elem_of {W} (items : list (K * W)) (k : K) (w : W) :
  last_value k items = Some w -> (k, w) ∈ items.
Proof.
  induction items as [|[c w0] items IH]; simpl; [done|].
  destruct (last_value k items) as [w'|].
  - intros [= ->]. apply elem_of_cons. right. by apply IH.
  - destruct (decide (k = c)) as [->|]; [|done].
    intros [= ->]. apply elem_of_cons. by left.
Qed.

Lemma last_value_None {W} (items : list (K * W)) (k : K) :
  last_value k items = None <-> k ∉ items.*1.
Proof.
  induction items as [|[c w0] items IH]; simpl.
  - split; [|done]. intros _. apply not_elem_of_nil.
  - rewrite not_elem_of_cons, <- IH.
    destruct (last_value k items) as [w'|].
    + split; [done|]. by intros [_ ?].
    + destruct (decide (k = c)); split; try done. by intros [? _].
Qed.

Lemma dict_get_elem_of (d : list (K * V)) (k : K) (v : V) :
  dict_get k d = Some v -> (k, v) ∈ d.
Proof.
  induction d as [|[k0 v0] d IH]; simpl; [done|].
  destruct (decide (k = k0)) as [->|].
  - intros [= ->]. apply elem_of_cons. by left.
  - intros Hget. apply elem_of_cons. right. by apply IH.
Qed.

Lemma elem_of_dict_get (d : list (K * V)) (k : K) (v : V) :
  NoDup d.*1 -> (k, v) ∈ d -> dict_get k d = Some v.
Proof.
  induction d as [|[k0 v0] d IH]; simpl; intros Hnd Hin.
  - by apply elem_of_nil in Hin.
  - apply NoDup_cons in Hnd as [Hnotin Hnd].
    apply elem_of_cons in Hin as [[= -> ->]|Hin].
    + by rewrite decide_True.
    + rewrite decide_False; [auto|].
      intros ->. apply Hnotin. apply list_elem_of_fmap. by exists (k0, v).
Qed.
End PyDictLast.

(** ** Reaction.get_stoichiometry_matrix *)

Section Stoichiometry.
Import reaction examples.

Lemma stoichiometry_keys (r : Reaction) (c : objid) :
  c ∈ dict_keys (get_stoichiometry_matrix r)
  <-> c ∈ dict_keys (reactants r) \/ c ∈ dict_keys (products r).
Proof.
  unfold get_stoichiometry_matrix, dict_keys.
  rewrite (fold_set_keys (fun k : Z => k)), (fold_set_keys Z.opp).
  split; [|tauto]. intros [?|[?|Hin]]; auto. by apply elem_of_nil in Hin.
Qed.

Lemma stoichiometry_NoDup (r : Reaction) :
  NoDup (dict_keys (get_stoichiometry_matrix r)).
Proof.
  unfold get_stoichiometry_matrix, dict_keys.
  apply (fold_set_NoDup (fun k : Z => k)), (fold_set_NoDup Z.opp), NoDup_nil_2.
Qed.


Example both_sides_matrix :
  get_stoichiometry_matrix both_sides
  = [(A, 3); (B, -1); (C, 1)].
Proof. reflexivity. Qed.

End Stoichiometry.

(** ** Reaction.calculate_rate *)

Section CalculateRate.
Import reaction trace spec.
Variable libm_pow : float -> float -> result float.

Lemma calculate_rate_loop_present (items : list (objid * Z))
    (concentrations : gmap objid float) (conc : objid -> float) (rate : float) :
  (forall c, c ∈ dict_keys items -> concentrations !! c = Some (conc c)) ->
  calculate_rate_loop libm_pow items concentrations rate
  = rate_law_product libm_pow items conc rate.
Proof.
  revert rate. induction items as [|[c k] items IH]; intros rate Hall; simpl.
  - done.
  - rewrite (Hall c) by (simpl; apply elem_of_cons; auto).
    destruct (float_pow_int libm_pow (conc c) k) as [p|e]; simpl; [|done].
    apply IH. intros c' Hin. apply Hall. simpl. apply elem_of_cons; auto.
Qed.

Lemma calculate_rate_loop_app (pre post : list (objid * Z))
    (concentrations : gmap objid float) (rate : float) :
  (forall c, c ∈ dict_keys pre -> is_Some (concentrations !! c)) ->
  calculate_rate_loop libm_pow (pre ++ post) concentrations rate
  = calculate_rate_loop libm_pow pre concentrations rate
      ≫= calculate_rate_loop libm_pow post concentrations.
Proof.
  revert rate. induction pre as [|[c k] pre IH]; intros rate Hall; simpl.
  - done.
  - destruct (Hall c) as [x Hc]; [simpl; apply elem_of_cons; auto|].
    rewrite Hc.
    destruct (float_pow_int libm_pow x k) as [p|e]; simpl; [|done].
    apply IH. intros c' Hin. apply Hall. simpl. apply elem_of_cons; auto.
Qed.

(** C2 (as the code has it). With every reactant a key of the mapping,
    [calculate_rate] is the product formula, the factors taken in the order
    of the reactants (an exception of a power is the exception of the
    call). With a reactant absent, all those before it being present, the
    call returns exactly 0.0 when the powers of the reactants before it
    return, and otherwise raises what the first failing power raises. The
    call keeps no state: whatever an earlier call returned, a call with
    every reactant present is the product formula. *)
Theorem calculate_rate_spec (r : Reaction) :
  (forall (concentrations : gmap objid float) (conc : objid -> float),
      (forall c, c ∈ dict_keys (reactants r) ->
                 concentrations !! c = Some (conc c)) ->
      calculate_rate libm_pow r concentrations = rate_law libm_pow r conc)
  /\ (forall (concentrations : gmap objid float) (conc : objid -> float)
             pre c k post,
      reactants r = pre ++ (c, k) :: post ->
      (forall c', c' ∈ dict_keys pre -> concentrations !! c' = Some (conc c')) ->
      concentrations !! c = None ->
      (is_Ok (rate_law_product libm_pow pre conc (rate_constant r)) ->
       calculate_rate libm_pow r concentrations = Ok 0%float)
      /\ (forall e, rate_law_product libm_pow pre conc (rate_constant r) = Raise e ->
                    calculate_rate libm_pow r concentrations = Raise e)).
Proof.
  split.
  - intros concentrations conc Hall. by apply calculate_rate_loop_present.
  - intros concentrations conc pre c k post Heq Hpre Habs.
    unfold calculate_rate. rewrite Heq, calculate_rate_loop_app.
    2:{ intros c' Hin. rewrite (Hpre c'); eauto. }
    rewrite (calculate_rate_loop_present pre concentrations conc) by done.
    split.
    + intros [x ->]. simpl. by rewrite Habs.
    + intros e ->. done.
Qed.
End CalculateRate.

Section CalculateRateExamples.
Import reaction trace spec examples.

Example rate_a_plus_b :
  calculate_rate pow_small a_plus_b initial_ab = Ok 0.05%float.
Proof. vm_compute. reflexivity. Qed.

Lemma calculate_rate_spec_witness :
  calculate_rate pow_small a_plus_b initial_ab
  = rate_law pow_small a_plus_b (fun c => if decide (c = A) then 1 else 0.5)%float
  /\ calculate_rate pow_small a_plus_b {[A := 1%float]} = Ok 0%float.
Proof.
  destruct (calculate_rate_spec pow_small a_plus_b) as [Hall Habs]. split.
  - apply Hall. intros c Hin.
    apply elem_of_cons in Hin as [->|Hin]; [reflexivity|].
    apply elem_of_cons in Hin as [->|Hin]; [reflexivity|].
    by apply elem_of_nil in Hin.
  - apply (Habs {[A := 1%float]} (fun _ => 1%float) [(A, 1)] B 1 []).
    + reflexivity.
    + intros c Hin. apply elem_of_cons in Hin as [->|Hin]; [reflexivity|].
      by apply elem_of_nil in Hin.
    + reflexivity.
    + eexists. vm_compute. reflexivity.
Defined.

Lemma huge_coefficient_raises (libm_pow : float -> float -> result float) :
  calculate_rate libm_pow huge_coefficient {[A := 1%float]}
  = Raise OverflowError.
Proof. vm_compute. reflexivity. Qed.

(** C2 as stated fails: [B] is a reactant absent from the mapping, and the
    call raises [OverflowError] instead of returning 0.0. *)
Lemma calculate_rate_absent_not_zero :
  B ∈ dict_keys (reactants huge_coefficient)
  /\ ({[A := 1%float]} : gmap objid float) !! B = None
  /\ calculate_rate pow_small huge_coefficient {[A := 1%float]}
     = Raise OverflowError
  /\ calculate_rate pow_small huge_coefficient {[A := 1%float]}
     <> Ok 0%float.
Proof.
  split; [|split; [|split]].
  - vm_compute. apply elem_of_cons. right. apply elem_of_cons. by left.
  - reflexivity.
  - apply huge_coefficient_raises.
  - rewrite huge_coefficient_raises. discriminate.
Qed.
End CalculateRateExamples.

(** ** Loops over mappings *)

Section Loops.
Import reaction.

Lemma lookup_keyed {V} (g : objid -> V) (X : gset objid) (c : objid) :
  (set_to_map (fun c => (c, g c)) X : gmap objid V) !! c
  = if decide (c ∈ X) then Some (g c) else None.
Proof.
  assert (Hinj : forall y y' : objid,
             y ∈ X -> y' ∈ X -> (y, g y).1 = (y', g y').1 -> y = y')
    by (intros y y' _ _ Heq; exact Heq).
  destruct (decide (c ∈ X)) as [Hin|Hn].
  - apply (lookup_set_to_map (fun c => (c, g c))); [done|]. eauto.
  - apply eq_None_not_Some. intros [v Hv].
    apply (lookup_set_to_map (fun c => (c, g c))) in Hv as (y & Hy & Heq);
      [|done].
    by injection Heq as -> _.
Qed.

Lemma dict_comprehension_fwd {V} (f : objid -> result V) (keys : list objid)
    (d m : gmap objid V) :
  foldM (fun d k => v ← f k; Ok (<[k := v]> d)) d keys = Ok m ->
  (forall k, k ∈ keys -> exists v, f k = Ok v /\ m !! k = Some v)
  /\ (forall k, k ∉ keys -> m !! k = d !! k).
Proof.
  revert d. induction keys as [|k0 keys IH]; intros d Hfold; simpl in Hfold.
  - injection Hfold as ->. split; [|done].
    intros k Hin. by apply elem_of_nil in Hin.
  - apply bind_Ok in Hfold as (d1 & Hd1 & Hfold).
    apply bind_Ok in Hd1 as (v0 & Hv0 & [= <-]).
    destruct (IH _ Hfold) as [Hin Hout]. split.
    + intros k Hk. destruct (decide (k ∈ keys)) as [Hk'|Hk']; [by apply Hin|].
      apply elem_of_cons in Hk as [->|?]; [|done].
      exists v0. split; [done|]. rewrite Hout by done. apply lookup_insert_eq.
    + intros k Hk. apply not_elem_of_cons in Hk as [Hne Hk].
      rewrite Hout by done. by apply lookup_insert_ne.
Qed.

Lemma dict_comprehension_bwd {V} (f : objid -> result V) (keys : list objid)
    (d : gmap objid V) :
  (forall k, k ∈ keys -> is_Ok (f k)) ->
  is_Ok (foldM (fun d k => v ← f k; Ok (<[k := v]> d)) d keys).
Proof.
  revert d. induction keys as [|k0 keys IH]; intros d Hall; simpl.
  - by eexists.
  - destruct (Hall k0) as [v0 Hv0]; [apply elem_of_cons; auto|].
    rewrite Hv0. simpl. apply IH. intros k Hk. apply Hall, elem_of_cons; auto.
Qed.

(** The comprehension over the elements of a set, by its lookups. *)
Lemma dict_comprehension_set {V} (f : objid -> result V) (X : gset objid)
    (g : objid -> V) :
  (forall k, k ∈ X -> f k = Ok (g k)) ->
  dict_comprehension (elements X) f = Ok (set_to_map (fun c => (c, g c)) X).
Proof.
  intros Hf. unfold dict_comprehension.
  destruct (dict_comprehension_bwd f (elements X) ∅) as [m Hm].
  { intros k Hk. apply elem_of_elements in Hk. rewrite Hf by done. by eexists. }
  rewrite Hm. f_equal. apply map_eq. intros k. rewrite lookup_keyed.
  destruct (dict_comprehension_fwd _ _ _ _ Hm) as [Hin Hout].
  destruct (decide (k ∈ X)) as [Hk|Hk].
  - destruct (Hin k) as (v & Hv & ->); [by apply elem_of_elements|].
    rewrite Hf in Hv by done. congruence.
  - rewrite Hout; [done|]. by rewrite elem_of_elements.
Qed.

Lemma dict_comprehension_set_inv {V} (f : objid -> result V) (X : gset objid)
    (m : gmap objid V) :
  dict_comprehension (elements X) f = Ok m ->
  forall k, if decide (k ∈ X) then exists v, f k = Ok v /\ m !! k = Some v
            else m !! k = None.
Proof.
  intros Hm k. destruct (dict_comprehension_fwd _ _ _ _ Hm) as [Hin Hout].
  destruct (decide (k ∈ X)) as [Hk|Hk].
  - apply Hin. by apply elem_of_elements.
  - rewrite Hout; [done|]. by rewrite elem_of_elements.
Qed.
End Loops.

(** ** One Euler step *)

Section EulerStep.
Import reaction trace spec.
Variable libm_pow : float -> float -> result float.

(** The entries of one stoichiometry matrix added to [rate_changes]. *)
Lemma add_rate_changes_fwd (rate : float) (st : list (objid * Z))
    (rc rc' : gmap objid float) :
  NoDup (dict_keys st) ->
  foldM (add_rate_changes rate) rc st = Ok rc' ->
  forall c,
    match dict_get c st with
    | Some k => exists old t, rc !! c = Some old
                              /\ int_mul_float k rate = Ok t
                              /\ rc' !! c = Some (old + t)%float
    | None => rc' !! c = rc !! c
    end.
Proof.
  revert rc. induction st as [|[c0 k0] st IH]; intros rc Hnd Hfold c;
    simpl in Hfold.
  - injection Hfold as ->. done.
  - simpl in Hnd. apply NoDup_cons in Hnd as [Hnotin Hnd].
    apply bind_Ok in Hfold as (rc1 & Hrc1 & Hfold).
    apply bind_Ok in Hrc1 as (old & Hold & Hrc1).
    apply bind_Ok in Hrc1 as (t & Ht & [= <-]).
    unfold getitem in Hold. destruct (rc !! c0) as [old'|] eqn:Hc0; [|done].
    injection Hold as ->.
    specialize (IH _ Hnd Hfold). simpl.
    destruct (decide (c = c0)) as [->|Hne].
    + exists old, t. repeat split; [done..|].
      specialize (IH c0). apply dict_get_None in Hnotin.
      rewrite Hnotin in IH. rewrite IH. apply lookup_insert_eq.
    + specialize (IH c). rewrite lookup_insert_ne in IH by done. exact IH.
Qed.

Lemma add_rate_changes_bwd (rate : float) (st : list (objid * Z))
    (rc : gmap objid float) :
  NoDup (dict_keys st) ->
  (forall c k, dict_get c st = Some k ->
               is_Some (rc !! c) /\ is_Ok (int_mul_float k rate)) ->
  is_Ok (foldM (add_rate_changes rate) rc st).
Proof.
  revert rc. induction st as [|[c0 k0] st IH]; intros rc Hnd Hall; simpl.
  - by eexists.
  - simpl in Hnd. apply NoDup_cons in Hnd as [Hnotin Hnd].
    destruct (Hall c0 k0) as [[old Hold] [t Ht]];
      [simpl; by rewrite decide_True|].
    unfold getitem. rewrite Hold. simpl. rewrite Ht. simpl.
    apply IH; [done|]. intros c k Hget.
    assert (c <> c0) as Hne.
    { intros ->. apply Hnotin. by apply dict_get_Some_keys in Hget. }
    destruct (Hall c k) as [Hs Hm]; [simpl; by rewrite decide_False|].
    split; [|done]. by rewrite lookup_insert_ne.
Qed.

Lemma calculate_rate_no_reactants (r : Reaction) (cur : gmap objid float) :
  reactants r = [] -> calculate_rate libm_pow r cur = Ok (rate_constant r).
Proof. unfold calculate_rate. by intros ->. Qed.

(** The loop over the reactions leaves in [rate_changes], for every
    compound, the sum [rate_change]. *)
Lemma accumulate_fwd (cur : gmap objid float) (rs : list Reaction)
    (rc rc' : gmap objid float) :
  foldM (accumulate_reaction libm_pow cur) rc rs = Ok rc' ->
  forall c,
    match rc !! c with
    | Some a => exists a', rate_change libm_pow rs cur c a = Ok a'
                           /\ rc' !! c = Some a'
    | None => rc' !! c = None
    end.
Proof.
  revert rc. induction rs as [|r rs IH]; intros rc Hfold c; simpl in Hfold.
  - injection Hfold as <-. destruct (rc !! c); eauto.
  - apply bind_Ok in Hfold as (rc1 & Hrc1 & Hfold).
    apply bind_Ok in Hrc1 as (rate & Hrate & Hrc1).
    pose proof (add_rate_changes_fwd _ _ _ _ (stoichiometry_NoDup r) Hrc1 c)
      as Hc.
    specialize (IH _ Hfold c). simpl. rewrite Hrate. simpl.
    unfold matrix_entry.
    destruct (dict_get c (get_stoichiometry_matrix r)) as [k|].
    + destruct Hc as (old & t & Hold & Ht & Hnew).
      rewrite Hold. rewrite Hnew in IH. by rewrite Ht.
    + rewrite Hc in IH. exact IH.
Qed.

Lemma accumulate_bwd (cur : gmap objid float) (rs : list Reaction)
    (rc : gmap objid float) :
  (forall r c, r ∈ rs -> c ∈ dict_keys (get_stoichiometry_matrix r) ->
               is_Some (rc !! c)) ->
  (forall c a, rc !! c = Some a -> is_Ok (rate_change libm_pow rs cur c a)) ->
  is_Ok (foldM (accumulate_reaction libm_pow cur) rc rs).
Proof.
  revert rc. induction rs as [|r rs IH]; intros rc Hkeys Hsum; simpl.
  - by eexists.
  - assert (exists rate, calculate_rate libm_pow r cur = Ok rate) as [rate Hrate].
    { destruct (get_stoichiometry_matrix r) as [|[c k] st] eqn:Hst.
      - exists (rate_constant r). apply calculate_rate_no_reactants.
        destruct (reactants r) as [|[c k] items] eqn:Hr; [done|].
        assert (c ∈ dict_keys (get_stoichiometry_matrix r)) as Hin.
        { apply stoichiometry_keys. left. rewrite Hr. simpl.
          apply elem_of_cons; auto. }
        rewrite Hst in Hin. by apply elem_of_nil in Hin.
      - destruct (Hkeys r c) as [a Ha].
        { apply elem_of_cons; auto. }
        { rewrite Hst. simpl. apply elem_of_cons; auto. }
        destruct (Hsum c a Ha) as [a' Ha']. simpl in Ha'.
        apply bind_Ok in Ha' as (rate & Hrate & _). eauto. }
    assert (accumulate_reaction libm_pow cur rc r
            = foldM (add_rate_changes rate) rc (get_stoichiometry_matrix r))
      as -> by (unfold accumulate_reaction; by rewrite Hrate).
    destruct (add_rate_changes_bwd rate (get_stoichiometry_matrix r) rc)
      as [rc1 Hrc1].
    { apply stoichiometry_NoDup. }
    { intros c k Hget. split.
      - apply (Hkeys r); [apply elem_of_cons; auto|].
        by apply dict_get_Some_keys in Hget.
      - destruct (Hkeys r c) as [a Ha].
        { apply elem_of_cons; auto. }
        { by apply dict_get_Some_keys in Hget. }
        destruct (Hsum c a Ha) as [a' Ha']. simpl in Ha'.
        rewrite Hrate in Ha'. simpl in Ha'. unfold matrix_entry in Ha'.
        rewrite Hget in Ha'.
        apply bind_Ok in Ha' as (t & Ht & _). by exists t. }
    rewrite Hrc1. simpl.
    pose proof (add_rate_changes_fwd _ _ _ _ (stoichiometry_NoDup r) Hrc1)
      as Hfwd.
    apply IH.
    + intros r' c Hr' Hc. destruct (Hkeys r' c) as [a Ha]; [apply elem_of_cons; auto|done|].
      specialize (Hfwd c).
      destruct (dict_get c (get_stoichiometry_matrix r)).
      * destruct Hfwd as (? & ? & _ & _ & ->). eauto.
      * rewrite Hfwd. eauto.
    + intros c a1 Ha1. specialize (Hfwd c).
      destruct (dict_get c (get_stoichiometry_matrix r)) as [k|] eqn:Hget.
      * destruct Hfwd as (old & t & Hold & Ht & Hnew).
        destruct (Hsum c old Hold) as [a' Ha']. simpl in Ha'.
        rewrite Hrate in Ha'. simpl in Ha'. unfold matrix_entry in Ha'.
        rewrite Hget, Ht in Ha'. simpl in Ha'.
        rewrite Hnew in Ha1. injection Ha1 as <-. by exists a'.
      * rewrite Hfwd in Ha1.
        destruct (Hsum c a1 Ha1) as [a' Ha']. simpl in Ha'.
        rewrite Hrate in Ha'. simpl in Ha'. unfold matrix_entry in Ha'.
        rewrite Hget in Ha'. by exists a'.
Qed.

(** The loop that appends the new concentrations. *)
Lemma append_fwd (cur rc : gmap objid float) (dt : float)
    (keys : list objid) (concs concs' : gmap objid (list float)) :
  NoDup keys ->
  foldM (append_new_conc cur rc dt) concs keys = Ok concs' ->
  (forall c, c ∈ keys ->
     exists x y l, cur !! c = Some x /\ rc !! c = Some y
                   /\ concs !! c = Some l
                   /\ concs' !! c = Some (l ++ [max0 (x + y * dt)%float]))
  /\ (forall c, c ∉ keys -> concs' !! c = concs !! c).
Proof.
  revert concs. induction keys as [|c0 keys IH]; intros concs Hnd Hfold;
    simpl in Hfold.
  - injection Hfold as ->. split; [|done].
    intros c Hin. by apply elem_of_nil in Hin.
  - apply NoDup_cons in Hnd as [Hnotin Hnd].
    apply bind_Ok in Hfold as (concs1 & Hstep & Hfold).
    apply bind_Ok in Hstep as (x & Hx & Hstep).
    apply bind_Ok in Hstep as (y & Hy & Hstep).
    apply bind_Ok in Hstep as (l & Hl & [= <-]).
    unfold getitem in Hx, Hy, Hl.
    destruct (cur !! c0) as [x'|] eqn:Hx'; [injection Hx as ->|done].
    destruct (rc !! c0) as [y'|] eqn:Hy'; [injection Hy as ->|done].
    destruct (concs !! c0) as [l'|] eqn:Hl'; [injection Hl as ->|done].
    destruct (IH _ Hnd Hfold) as [Hin Hout]. split.
    + intros c Hc. apply elem_of_cons in Hc as [->|Hc].
      * exists x, y, l. repeat split; [done..|].
        rewrite Hout by done. apply lookup_insert_eq.
      * destruct (Hin c Hc) as (x1 & y1 & l1 & ? & ? & Hl1 & ?).
        exists x1, y1, l1. repeat split; [done..| |done].
        rewrite lookup_insert_ne in Hl1; [done|]. by intros ->.
    + intros c Hc. apply not_elem_of_cons in Hc as [Hne Hc].
      rewrite Hout by done. by rewrite lookup_insert_ne.
Qed.

Lemma append_bwd (cur rc : gmap objid float) (dt : float)
    (keys : list objid) (concs : gmap objid (list float)) :
  (forall c, c ∈ keys ->
             is_Some (cur !! c) /\ is_Some (rc !! c) /\ is_Some (concs !! c)) ->
  is_Ok (foldM (append_new_conc cur rc dt) concs keys).
Proof.
  revert concs. induction keys as [|c0 keys IH]; intros concs Hall; simpl.
  - by eexists.
  - destruct (Hall c0) as ([x Hx] & [y Hy] & [l Hl]); [apply elem_of_cons; auto|].
    assert (append_new_conc cur rc dt concs c0
            = Ok (<[c0 := l ++ [max0 (x + y * dt)%float]]> concs))
      as -> by (unfold append_new_conc, getitem; by rewrite Hx, Hy, Hl).
    simpl. apply IH. intros c Hc.
    destruct (Hall c) as (? & ? & Hs); [apply elem_of_cons; auto|].
    repeat split; [done..|].
    destruct (decide (c0 = c)) as [->|Hne].
    + rewrite lookup_insert_eq. eauto.
    + by rewrite lookup_insert_ne.
Qed.
End EulerStep.

(** ** The simulation and its rows *)

Section Simulation.
Import reaction trace spec.
Variable libm_pow : float -> float -> result float.

Lemma lookup_columns (sys : ReactionSystem) (rows : list (gmap objid float))
    (c : objid) :
  columns sys rows !! c
  = if decide (c ∈ all_compounds sys)
    then Some ((fun row => conc_of row c) <$> rows) else None.
Proof. unfold columns. by rewrite lookup_keyed. Qed.

Lemma row_keyed (X : gset objid) (prev : gmap objid float) :
  dom prev = X -> set_to_map (fun c => (c, conc_of prev c)) X = prev.
Proof.
  intros Hdom. apply map_eq. intros c. rewrite lookup_keyed.
  destruct (decide (c ∈ X)) as [Hin|Hn].
  - rewrite <- Hdom in Hin. apply elem_of_dom in Hin as [v Hv].
    unfold conc_of. by rewrite Hv.
  - rewrite <- Hdom in Hn. symmetry. by apply not_elem_of_dom.
Qed.

Lemma current_conc_eq (sys : ReactionSystem) (R : list (gmap objid float))
    (prev : gmap objid float) :
  dom prev = all_compounds sys ->
  dict_comprehension (elements (all_compounds sys))
    (fun compound => l ← getitem (columns sys (R ++ [prev])) compound; list_last l)
  = Ok prev.
Proof.
  intros Hdom.
  rewrite (dict_comprehension_set _ _ (fun c => conc_of prev c)).
  - by rewrite row_keyed.
  - intros c Hc. unfold getitem. rewrite lookup_columns, decide_True by done.
    simpl. unfold list_last. rewrite fmap_app. simpl. by rewrite last_snoc.
Qed.

Lemma next_row_dom (sys : ReactionSystem) (prev row : gmap objid float)
    (dt : float) :
  next_row libm_pow sys prev dt = Ok row -> dom row = all_compounds sys.
Proof.
  intros Hrow. apply set_eq. intros c. rewrite elem_of_dom.
  pose proof (dict_comprehension_set_inv _ _ _ Hrow c) as Hc.
  destruct (decide (c ∈ all_compounds sys)) as [Hin|Hn].
  - destruct Hc as (v & _ & ->). split; eauto.
  - rewrite Hc. split; [by intros [? ?]|done].
Qed.

Lemma simulate_step_fwd (sys : ReactionSystem) (tps : list float)
    (R : list (gmap objid float)) (prev : gmap objid float) (i : nat)
    (t_i t_p : float) (concs' : gmap objid (list float)) :
  dom prev = all_compounds sys ->
  tps !! i = Some t_i -> tps !! (i - 1)%nat = Some t_p ->
  simulate_step libm_pow sys tps (columns sys (R ++ [prev])) i = Ok concs' ->
  exists row, next_row libm_pow sys prev (t_i - t_p) = Ok row
              /\ concs' = columns sys (R ++ [prev; row]).
Proof.
  intros Hdom Hi Hp Hstep. unfold simulate_step, list_getitem in Hstep.
  rewrite Hi, Hp in Hstep. simpl in Hstep.
  rewrite current_conc_eq in Hstep by done. simpl in Hstep.
  apply bind_Ok in Hstep as (rc & Hrc & Hupd).
  pose proof (accumulate_fwd _ _ _ _ _ Hrc) as Hsum.
  destruct (append_fwd _ _ _ _ _ _ (NoDup_elements _) Hupd) as [Hin Hout].
  assert (forall c, c ∈ all_compounds sys ->
            exists s, rate_change libm_pow (reactions sys) prev c 0 = Ok s
                      /\ rc !! c = Some s) as Hnet.
  { intros c Hc. specialize (Hsum c).
    rewrite lookup_gset_to_gmap, option_guard_True in Hsum by done.
    exact Hsum. }
  destruct (dict_comprehension_bwd (next_conc libm_pow sys prev (t_i - t_p))
              (elements (all_compounds sys)) ∅) as [row Hrow].
  { intros c Hc. apply elem_of_elements in Hc.
    destruct (Hnet c Hc) as (s & Hs & _).
    unfold next_conc. rewrite Hs. by eexists. }
  exists row. split; [exact Hrow|].
  apply map_eq. intros c. rewrite lookup_columns.
  pose proof (dict_comprehension_set_inv _ _ _ Hrow c) as Hc.
  destruct (decide (c ∈ all_compounds sys)) as [Hcin|Hcn].
  - destruct (Hin c) as (x & y & l & Hx & Hy & Hl & ->);
      [by apply elem_of_elements|].
    destruct (Hnet c Hcin) as (s & Hs & Hrcs).
    destruct Hc as (v & Hv & Hrv).
    unfold next_conc in Hv. rewrite Hs in Hv. simpl in Hv.
    injection Hv as <-.
    rewrite lookup_columns, decide_True in Hl by done. injection Hl as <-.
    rewrite Hy in Hrcs. injection Hrcs as ->.
    f_equal. change [prev; row] with ([prev] ++ [row]).
    rewrite app_assoc, !fmap_app. simpl. do 2 f_equal.
    unfold conc_of. rewrite Hrv. simpl.
    unfold conc_of. rewrite Hx. simpl. by rewrite float_mul_comm.
  - rewrite Hout by (by rewrite elem_of_elements).
    by rewrite lookup_columns, decide_False.
Qed.

Lemma simulate_step_bwd (sys : ReactionSystem) (tps : list float)
    (R : list (gmap objid float)) (prev : gmap objid float) (i : nat)
    (t_i t_p : float) :
  closed_system sys ->
  dom prev = all_compounds sys ->
  tps !! i = Some t_i -> tps !! (i - 1)%nat = Some t_p ->
  is_Ok (next_row libm_pow sys prev (t_i - t_p)) ->
  is_Ok (simulate_step libm_pow sys tps (columns sys (R ++ [prev])) i).
Proof.
  intros Hclosed Hdom Hi Hp [row Hrow]. unfold simulate_step, list_getitem.
  rewrite Hi, Hp. simpl. rewrite current_conc_eq by done. simpl.
  destruct (accumulate_bwd libm_pow prev (reactions sys)
              (gset_to_gmap 0%float (all_compounds sys))) as [rc Hrc].
  { intros r c Hr Hc. rewrite lookup_gset_to_gmap, option_guard_True; [eauto|].
    by apply (Hclosed r). }
  { intros c a Ha. apply lookup_gset_to_gmap_Some in Ha as [Hc <-].
    pose proof (dict_comprehension_set_inv _ _ _ Hrow c) as Hv.
    rewrite decide_True in Hv by done. destruct Hv as (v & Hv & _).
    unfold next_conc in Hv. apply bind_Ok in Hv as (s & Hs & _). by exists s. }
  rewrite Hrc. simpl. apply append_bwd. intros c Hc.
  apply elem_of_elements in Hc. repeat split.
  - apply elem_of_dom. by rewrite Hdom.
  - pose proof (accumulate_fwd _ _ _ _ _ Hrc c) as Hsum.
    rewrite lookup_gset_to_gmap, option_guard_True in Hsum by done.
    destruct Hsum as (a' & _ & ->). eauto.
  - rewrite lookup_columns, decide_True by done. eauto.
Qed.
End Simulation.

Section WholeSimulation.
Import reaction trace spec.
Variable libm_pow : float -> float -> result float.

Lemma collect_compounds (rs : list Reaction) (s : gset objid) (c : objid) :
  c ∈ fold_left (fun s reaction =>
                   s ∪ list_to_set (dict_keys (reactants reaction))
                     ∪ list_to_set (dict_keys (products reaction))) rs s
  <-> c ∈ s \/ exists r, r ∈ rs /\ (c ∈ dict_keys (reactants r)
                                    \/ c ∈ dict_keys (products r)).
Proof.
  revert s. induction rs as [|r rs IH]; intros s; simpl.
  - split; [auto|]. intros [?|(r & Hr & _)]; [done|].
    by apply elem_of_nil in Hr.
  - rewrite IH, !elem_of_union, !elem_of_list_to_set. split.
    + intros [[[?|?]|?]|(r' & Hr' & Hc)]; auto.
      * right. exists r. split; [apply elem_of_cons|]; auto.
      * right. exists r. split; [apply elem_of_cons|]; auto.
      * right. exists r'. split; [apply elem_of_cons|]; auto.
    + intros [?|(r' & Hr' & Hc)]; auto.
      apply elem_of_cons in Hr' as [->|Hr']; [tauto|].
      right. eauto.
Qed.

Lemma init_all_compounds (rs : list Reaction) (c : objid) :
  c ∈ all_compounds (ReactionSystem_init rs)
  <-> exists r, r ∈ rs /\ (c ∈ dict_keys (reactants r)
                           \/ c ∈ dict_keys (products r)).
Proof.
  unfold ReactionSystem_init. simpl. rewrite collect_compounds.
  split; [|auto]. intros [Hin|?]; [|done]. by apply not_elem_of_empty in Hin.
Qed.

Lemma init_closed (rs : list Reaction) : closed_system (ReactionSystem_init rs).
Proof.
  intros r c Hr Hc. apply init_all_compounds. exists r. split; [done|].
  by apply stoichiometry_keys.
Qed.

Lemma columns_row0 (sys : ReactionSystem) (initial : gmap objid float) :
  (set_to_map (fun compound =>
                 (compound, [default 0%float (initial !! compound)]))
              (all_compounds sys) : gmap objid (list float))
  = columns sys ([] ++ [first_row sys initial]).
Proof.
  apply map_eq. intros c. rewrite lookup_columns, lookup_keyed.
  destruct (decide (c ∈ all_compounds sys)) as [Hin|Hn]; [|done].
  simpl. unfold conc_of at 1, first_row.
  by rewrite lookup_keyed, decide_True.
Qed.

Lemma first_row_dom (sys : ReactionSystem) (initial : gmap objid float) :
  dom (first_row sys initial) = all_compounds sys.
Proof.
  apply set_eq. intros c. rewrite elem_of_dom. unfold first_row.
  rewrite lookup_keyed. destruct (decide (c ∈ all_compounds sys)).
  - split; eauto.
  - split; [by intros [? ?]|done].
Qed.

Lemma simulate_loop_fwd (sys : ReactionSystem) (tps ts pre : list float)
    (t_p : float) (R : list (gmap objid float)) (prev : gmap objid float)
    (res : gmap objid (list float)) :
  dom prev = all_compounds sys ->
  tps = pre ++ t_p :: ts ->
  foldM (simulate_step libm_pow sys tps) (columns sys (R ++ [prev]))
        (seq (S (length pre)) (length ts)) = Ok res ->
  exists rows, later_rows libm_pow sys prev t_p ts = Ok rows
               /\ res = columns sys (R ++ prev :: rows).
Proof.
  revert pre t_p R prev.
  induction ts as [|t ts IH]; intros pre t_p R prev Hdom Htps Hfold;
    simpl in Hfold.
  - injection Hfold as <-. by exists [].
  - apply bind_Ok in Hfold as (concs1 & Hstep & Hfold).
    assert (tps !! S (length pre) = Some t) as Hi.
    { rewrite Htps, lookup_app_r by lia.
      by replace (S (length pre) - length pre)%nat with 1%nat by lia. }
    assert (tps !! (S (length pre) - 1)%nat = Some t_p) as Hp.
    { rewrite Htps, lookup_app_r by lia.
      by replace (S (length pre) - 1 - length pre)%nat with 0%nat by lia. }
    destruct (simulate_step_fwd _ _ _ _ _ _ _ _ _ Hdom Hi Hp Hstep)
      as (row & Hrow & ->).
    change [prev; row] with ([prev] ++ [row]) in Hfold.
    rewrite app_assoc in Hfold.
    destruct (IH (pre ++ [t_p]) t (R ++ [prev]) row) as (rows & Hrows & ->).
    + by apply next_row_dom in Hrow.
    + by rewrite Htps, <- app_assoc.
    + by rewrite length_app, Nat.add_1_r.
    + exists (row :: rows). split.
      * simpl. rewrite Hrow. simpl. by rewrite Hrows.
      * by rewrite <- app_assoc.
Qed.

Lemma simulate_loop_bwd (sys : ReactionSystem) (tps ts pre : list float)
    (t_p : float) (R : list (gmap objid float)) (prev : gmap objid float)
    (rows : list (gmap objid float)) :
  closed_system sys ->
  dom prev = all_compounds sys ->
  tps = pre ++ t_p :: ts ->
  later_rows libm_pow sys prev t_p ts = Ok rows ->
  foldM (simulate_step libm_pow sys tps) (columns sys (R ++ [prev]))
        (seq (S (length pre)) (length ts))
  = Ok (columns sys (R ++ prev :: rows)).
Proof.
  intros Hclosed. revert pre t_p R prev rows.
  induction ts as [|t ts IH]; intros pre t_p R prev rows Hdom Htps Hrows;
    simpl in Hrows.
  - by injection Hrows as <-.
  - apply bind_Ok in Hrows as (row & Hrow & Hrows).
    apply bind_Ok in Hrows as (rows' & Hrows & [= <-]).
    assert (tps !! S (length pre) = Some t) as Hi.
    { rewrite Htps, lookup_app_r by lia.
      by replace (S (length pre) - length pre)%nat with 1%nat by lia. }
    assert (tps !! (S (length pre) - 1)%nat = Some t_p) as Hp.
    { rewrite Htps, lookup_app_r by lia.
      by replace (S (length pre) - 1 - length pre)%nat with 0%nat by lia. }
    destruct (simulate_step_bwd libm_pow sys tps R prev _ t t_p
                Hclosed Hdom Hi Hp) as [concs1 Hstep]; [by exists row|].
    destruct (simulate_step_fwd _ _ _ _ _ _ _ _ _ Hdom Hi Hp Hstep)
      as (row' & Hrow' & ->).
    rewrite Hrow in Hrow'. injection Hrow' as <-.
    simpl. rewrite Hstep. simpl.
    change [prev; row] with ([prev] ++ [row]). rewrite app_assoc.
    assert (S (S (length pre)) = S (length (pre ++ [t_p]))) as ->
      by (rewrite length_app; simpl; lia).
    rewrite (IH (pre ++ [t_p]) t (R ++ [prev]) row rows').
    + by rewrite <- app_assoc.
    + by apply next_row_dom in Hrow.
    + by rewrite Htps, <- app_assoc.
    + done.
Qed.

(** The trajectories returned by [simulate] are the columns of its
    rows, and [simulate] returns whenever the rows are defined. *)
Lemma simulate_rows (rs : list Reaction) (initial : gmap objid float)
    (tps : list float) (res : gmap objid (list float)) :
  let sys := ReactionSystem_init rs in
  simulate libm_pow sys initial tps = Ok res
  <-> exists rows,
        match tps with
        | [] => Ok []
        | t0 :: ts => later_rows libm_pow sys (first_row sys initial) t0 ts
        end = Ok rows
        /\ res = columns sys (first_row sys initial :: rows).
Proof.
  intros sys. unfold simulate. rewrite columns_row0.
  destruct tps as [|t0 ts].
  - simpl. split.
    + intros [= <-]. by exists [].
    + intros (rows & [= <-] & ->). done.
  - replace (length (t0 :: ts) - 1)%nat with (length ts) by (simpl; lia).
    split.
    + intros Hfold.
      apply (simulate_loop_fwd sys (t0 :: ts) ts [] t0 []) in Hfold;
        [done|apply first_row_dom|done].
    + intros (rows & Hrows & ->).
      apply (simulate_loop_bwd sys (t0 :: ts) ts [] t0 []);
        [apply init_closed|apply first_row_dom|done|done].
Qed.

Lemma later_rows_length (sys : ReactionSystem) (prev : gmap objid float)
    (t_p : float) (ts : list float) (rows : list (gmap objid float)) :
  later_rows libm_pow sys prev t_p ts = Ok rows -> length rows = length ts.
Proof.
  revert prev t_p rows. induction ts as [|t ts IH]; intros prev t_p rows H;
    simpl in H.
  - by injection H as <-.
  - apply bind_Ok in H as (row & _ & H).
    apply bind_Ok in H as (rows' & H & [= <-]).
    simpl. f_equal. by apply (IH row t).
Qed.
End WholeSimulation.

(** ** The rows and the forward-Euler reference *)

Section Reference.
Import reaction trace spec.
Variable libm_pow : float -> float -> result float.

Lemma compounds_of_init (rs : list Reaction) :
  all_compounds (ReactionSystem_init rs) = compounds_of rs.
Proof.
  apply set_eq. intros c. rewrite init_all_compounds. unfold compounds_of.
  rewrite elem_of_list_to_set, list_elem_of_join. split.
  - intros (r & Hr & Hc).
    exists (dict_keys (reactants r) ++ dict_keys (products r)).
    split; [apply elem_of_app; tauto|]. apply list_elem_of_fmap. eauto.
  - intros (l & Hc & Hl). apply list_elem_of_fmap in Hl as (r & -> & Hr).
    exists r. split; [done|]. by apply elem_of_app in Hc.
Qed.

Lemma matrix_entry_net (r : Reaction) (c : objid) :
  NoDup (dict_keys (reactants r)) -> NoDup (dict_keys (products r)) ->
  matrix_entry r c = net_coefficient r c.
Proof.
  intros Hr Hp. unfold matrix_entry, net_coefficient, get_stoichiometry_matrix.
  destruct (dict_get c (products r)) as [k|] eqn:Hk.
  - apply dict_get_elem_of in Hk. by apply (fold_set_get_in (fun k : Z => k)).
  - apply dict_get_None in Hk.
    rewrite (fold_set_get_notin (fun k : Z => k)) by done.
    destruct (dict_get c (reactants r)) as [k|] eqn:Hk'; simpl.
    + apply dict_get_elem_of in Hk'. by apply (fold_set_get_in Z.opp).
    + apply dict_get_None in Hk'. by rewrite (fold_set_get_notin Z.opp).
Qed.

Lemma calculate_rate_law (r : Reaction) (prev : gmap objid float) :
  (forall c, c ∈ dict_keys (reactants r) -> c ∈ dom prev) ->
  calculate_rate libm_pow r prev = rate_law libm_pow r (conc_of prev).
Proof.
  intros Hdom. apply calculate_rate_loop_present. intros c Hc.
  apply Hdom, elem_of_dom in Hc as [v Hv]. unfold conc_of. by rewrite Hv.
Qed.

Lemma rate_change_net_rate (rs : list Reaction) (prev : gmap objid float)
    (c : objid) (acc : float) :
  (forall r, r ∈ rs -> NoDup (dict_keys (reactants r))
                       /\ NoDup (dict_keys (products r))) ->
  (forall r c, r ∈ rs -> c ∈ dict_keys (reactants r) -> c ∈ dom prev) ->
  (forall r, r ∈ rs -> is_Ok (rate_law libm_pow r (conc_of prev))) ->
  rate_change libm_pow rs prev c acc = net_rate libm_pow rs (conc_of prev) c acc.
Proof.
  revert acc. induction rs as [|r rs IH]; intros acc Hd Hdom Hrate; simpl;
    [done|].
  rewrite calculate_rate_law
    by (intros c' Hc'; apply (Hdom r); [apply elem_of_cons; auto|done]).
  destruct (Hrate r) as [rate Hr]; [apply elem_of_cons; auto|].
  rewrite Hr. simpl.
  destruct (Hd r) as [Hnr Hnp]; [apply elem_of_cons; auto|].
  rewrite matrix_entry_net by done.
  assert (forall acc', rate_change libm_pow rs prev c acc'
                       = net_rate libm_pow rs (conc_of prev) c acc') as Hrest.
  { intros acc'. apply IH.
    - intros r' Hr'. apply Hd, elem_of_cons. auto.
    - intros r' c' Hr'. apply Hdom, elem_of_cons. auto.
    - intros r' Hr'. apply Hrate, elem_of_cons. auto. }
  destruct (net_coefficient r c) as [k|]; [|apply Hrest].
  destruct (int_mul_float k rate) as [t|e]; simpl; [apply Hrest|done].
Qed.

Lemma rate_change_rates (rs : list Reaction) (prev : gmap objid float)
    (c : objid) (acc : float) :
  is_Ok (rate_change libm_pow rs prev c acc) ->
  forall r, r ∈ rs -> is_Ok (calculate_rate libm_pow r prev).
Proof.
  revert acc. induction rs as [|r rs IH]; intros acc [s Hs] r' Hr';
    [by apply elem_of_nil in Hr'|].
  simpl in Hs. apply bind_Ok in Hs as (rate & Hrate & Hs).
  apply elem_of_cons in Hr' as [->|Hr']; [by eexists|].
  destruct (matrix_entry r c) as [k|].
  - apply bind_Ok in Hs as (t & _ & Hs).
    apply (IH (acc + t)%float); [by eexists|done].
  - apply (IH acc); [by eexists|done].
Qed.

Lemma net_rate_rates (rs : list Reaction) (conc : objid -> float) (c : objid)
    (acc : float) :
  is_Ok (net_rate libm_pow rs conc c acc) ->
  forall r, r ∈ rs -> is_Some (net_coefficient r c) ->
            is_Ok (rate_law libm_pow r conc).
Proof.
  revert acc. induction rs as [|r rs IH]; intros acc [s Hs] r' Hr' Hk;
    [by apply elem_of_nil in Hr'|].
  simpl in Hs. apply elem_of_cons in Hr' as [->|Hr'].
  - destruct Hk as [k Hk]. rewrite Hk in Hs.
    apply bind_Ok in Hs as (rate & Hrate & _). by eexists.
  - destruct (net_coefficient r c) as [k|].
    + apply bind_Ok in Hs as (rate & _ & Hs).
      apply bind_Ok in Hs as (t & _ & Hs).
      apply (IH (acc + t)%float); [by eexists|done..].
    + apply (IH acc); [by eexists|done..].
Qed.

Lemma reactant_net_coefficient (r : Reaction) (c : objid) :
  c ∈ dict_keys (reactants r) -> is_Some (net_coefficient r c).
Proof.
  intros Hc. unfold net_coefficient.
  destruct (dict_get c (products r)); [eauto|].
  destruct (dict_get c (reactants r)) eqn:Hg; simpl; [eauto|].
  by apply dict_get_None in Hg.
Qed.

Lemma no_reactants_rate (r : Reaction) (conc : objid -> float) :
  reactants r = [] -> rate_law libm_pow r conc = Ok (rate_constant r).
Proof. unfold rate_law. by intros ->. Qed.

(** One step of the loop is one step of the reference. *)
Lemma next_row_euler_step (rs : list Reaction) (prev : gmap objid float)
    (dt : float) (row : gmap objid float) :
  (forall r, r ∈ rs -> NoDup (dict_keys (reactants r))
                       /\ NoDup (dict_keys (products r))) ->
  dom prev = all_compounds (ReactionSystem_init rs) ->
  next_row libm_pow (ReactionSystem_init rs) prev dt = Ok row
  <-> euler_step libm_pow rs prev dt = Ok row.
Proof.
  intros Hd Hdom.
  assert (forall r c, r ∈ rs -> c ∈ dict_keys (reactants r) -> c ∈ dom prev)
    as Hin.
  { intros r c Hr Hc. rewrite Hdom. apply init_all_compounds. eauto. }
  assert ((forall r, r ∈ rs -> is_Ok (rate_law libm_pow r (conc_of prev))) ->
          next_row libm_pow (ReactionSystem_init rs) prev dt
          = euler_step libm_pow rs prev dt) as Heq.
  { intros Hrate. unfold next_row, euler_step, dict_comprehension.
    rewrite compounds_of_init. apply foldM_ext. intros d c.
    unfold next_conc, euler_next. cbn [reactions ReactionSystem_init].
    by rewrite rate_change_net_rate. }
  split; intros Hrow.
  - rewrite <- Heq; [done|]. intros r Hr.
    destruct (reactants r) as [|[c0 k0] rest] eqn:Hre;
      [rewrite no_reactants_rate by done; by eexists|].
    assert (c0 ∈ dict_keys (reactants r)) as Hc0
      by (rewrite Hre; simpl; apply elem_of_cons; auto).
    pose proof (dict_comprehension_set_inv _ _ _ Hrow c0) as Hv.
    rewrite decide_True in Hv by (apply init_all_compounds; eauto).
    destruct Hv as (v & Hv & _). unfold next_conc in Hv.
    apply bind_Ok in Hv as (s & Hs & _).
    rewrite <- calculate_rate_law by (intros c' Hc'; by apply (Hin r)).
    apply (rate_change_rates (reactions (ReactionSystem_init rs)) prev c0 0%float);
      [by eexists|done].
  - rewrite Heq; [done|]. intros r Hr.
    destruct (reactants r) as [|[c0 k0] rest] eqn:Hre;
      [rewrite no_reactants_rate by done; by eexists|].
    assert (c0 ∈ dict_keys (reactants r)) as Hc0
      by (rewrite Hre; simpl; apply elem_of_cons; auto).
    pose proof (dict_comprehension_set_inv (euler_next libm_pow rs prev dt)
                  (compounds_of rs) row Hrow c0) as Hv.
    rewrite decide_True in Hv
      by (rewrite <- compounds_of_init; apply init_all_compounds; eauto).
    destruct Hv as (v & Hv & _). unfold euler_next in Hv.
    apply bind_Ok in Hv as (s & Hs & _).
    apply (net_rate_rates rs (conc_of prev) c0 0%float);
      [by eexists|done|by apply reactant_net_coefficient].
Qed.

Lemma later_rows_euler_rows (rs : list Reaction) (ts : list float)
    (prev : gmap objid float) (t_p : float) (rows : list (gmap objid float)) :
  (forall r, r ∈ rs -> NoDup (dict_keys (reactants r))
                       /\ NoDup (dict_keys (products r))) ->
  dom prev = all_compounds (ReactionSystem_init rs) ->
  later_rows libm_pow (ReactionSystem_init rs) prev t_p ts = Ok rows
  <-> euler_rows libm_pow rs prev t_p ts = Ok rows.
Proof.
  intros Hd. revert prev t_p rows.
  induction ts as [|t ts IH]; intros prev t_p rows Hdom; simpl; [done|].
  rewrite !bind_Ok. split.
  - intros (row & Hrow & Hrest). exists row.
    split; [by apply next_row_euler_step|].
    apply bind_Ok in Hrest as (rows' & Hrows' & Heq).
    apply bind_Ok. exists rows'. split; [|done].
    apply IH; [|done]. by apply next_row_dom in Hrow.
  - intros (row & Hrow & Hrest).
    apply next_row_euler_step in Hrow; [|done..]. exists row. split; [done|].
    apply bind_Ok in Hrest as (rows' & Hrows' & Heq).
    apply bind_Ok. exists rows'. split; [|done].
    apply IH; [|done]. by apply next_row_dom in Hrow.
Qed.

(** [simulate] and the reference return the same trajectories. *)
Lemma simulate_reference (rs : list Reaction) (initial : gmap objid float)
    (tps : list float) (res : gmap objid (list float)) :
  (forall r, r ∈ rs -> NoDup (dict_keys (reactants r))
                       /\ NoDup (dict_keys (products r))) ->
  simulate libm_pow (ReactionSystem_init rs) initial tps = Ok res
  <-> euler_reference libm_pow rs initial tps = Ok res.
Proof.
  intros Hd. rewrite simulate_rows. unfold euler_reference. rewrite bind_Ok.
  assert (first_row (ReactionSystem_init rs) initial = euler_row0 rs initial)
    as Hrow0
    by (unfold first_row, euler_row0; by rewrite compounds_of_init).
  assert (forall rows, columns (ReactionSystem_init rs) rows
                       = trajectories rs rows) as Hcol
    by (intros; unfold columns, trajectories; by rewrite compounds_of_init).
  assert (forall rows,
            match tps with
            | [] => Ok []
            | t0 :: ts =>
                later_rows libm_pow (ReactionSystem_init rs)
                  (first_row (ReactionSystem_init rs) initial) t0 ts
            end = Ok rows
            <-> match tps with
                | [] => Ok []
                | t0 :: ts =>
                    euler_rows libm_pow rs (euler_row0 rs initial) t0 ts
                end = Ok rows) as Hrows.
  { intros rows. destruct tps as [|t0 ts]; [done|]. rewrite <- Hrow0.
    apply later_rows_euler_rows; [done|apply first_row_dom]. }
  split.
  - intros (rows & Hr & ->). exists rows. split; [by apply Hrows|].
    by rewrite Hcol, Hrow0.
  - intros (rows & Hr & [= <-]). exists rows. split; [by apply Hrows|].
    by rewrite Hcol, Hrow0.
Qed.
End Reference.

(** ** ReactionSystem.simulate *)

Section SimulateClaims.
Import reaction trace spec.
Variable libm_pow : float -> float -> result float.

Lemma later_rows_clamped (sys : ReactionSystem) (prev : gmap objid float)
    (t_p : float) (ts : list float) (rows : list (gmap objid float)) :
  later_rows libm_pow sys prev t_p ts = Ok rows ->
  Forall (clamped_row sys) rows.
Proof.
  revert prev t_p rows. induction ts as [|t ts IH]; intros prev t_p rows H;
    simpl in H.
  - injection H as <-. constructor.
  - apply bind_Ok in H as (row & Hrow & H).
    apply bind_Ok in H as (rows' & H & [= <-]).
    constructor; [|by apply (IH row t)].
    intros c Hc. pose proof (dict_comprehension_set_inv _ _ _ Hrow c) as Hv.
    rewrite decide_True in Hv by done. destruct Hv as (v & Hv & ->).
    unfold next_conc in Hv. apply bind_Ok in Hv as (s & _ & [= <-]). eauto.
Qed.

(** What a returned result looks like. *)
Lemma simulate_inv (rs : list Reaction) (initial : gmap objid float)
    (tps : list float) (res : gmap objid (list float)) :
  let sys := ReactionSystem_init rs in
  simulate libm_pow sys initial tps = Ok res ->
  exists rows,
    res = columns sys (first_row sys initial :: rows)
    /\ length rows = (length tps - 1)%nat
    /\ Forall (clamped_row sys) rows.
Proof.
  intros sys Hsim. apply simulate_rows in Hsim as (rows & Hrows & ->).
  exists rows. split; [done|]. destruct tps as [|t0 ts].
  - injection Hrows as <-. split; [done|constructor].
  - split.
    + apply later_rows_length in Hrows. simpl. lia.
    + by apply later_rows_clamped in Hrows.
Qed.







(** C1 (as the code has it). For a system built by the constructor from
    reactions whose sides are dictionaries, [simulate] returns the
    trajectories [res] exactly when the forward-Euler reference is defined
    and gives [res]: row 0 is [initial_concentrations.get(c, 0.0)] and
    every later row is [max(0.0, previous + dt * sum)], the sum running
    over the reactions of (net coefficient of [c]) * (rate law at the
    previous concentrations). The reference is undefined when a power or
    the conversion of a coefficient raises, and then [simulate] raises. *)
Theorem simulate_is_forward_euler (rs : list Reaction)
    (initial_concentrations : gmap objid float) (time_points : list float) :
  (forall r, r ∈ rs -> NoDup (dict_keys (reactants r))
                       /\ NoDup (dict_keys (products r))) ->
  (forall res,
      simulate libm_pow (ReactionSystem_init rs) initial_concentrations
               time_points = Ok res
      <-> euler_reference libm_pow rs initial_concentrations time_points
          = Ok res)
  /\ (forall e,
        euler_reference libm_pow rs initial_concentrations time_points
        = Raise e ->
        exists e',
          simulate libm_pow (ReactionSystem_init rs) initial_concentrations
                   time_points = Raise e').
Proof.
  intros Hd. split; [intros res; by apply simulate_reference|].
  intros e Href.
  destruct (simulate libm_pow (ReactionSystem_init rs) initial_concentrations
              time_points) as [res|e'] eqn:Hsim; [|by eexists].
  apply simulate_reference in Hsim; [|done]. congruence.
Qed.

(** C4 (as the code has it). Every trajectory of a returned result has
    [max(1, len(time_points))] entries, which is [len(time_points)] for
    every non-empty list of time points, and its first entry is
    [initial_concentrations.get(c, 0.0)]. *)
Theorem simulate_lengths (rs : list Reaction)
    (initial_concentrations : gmap objid float) (time_points : list float)
    (res : gmap objid (list float)) (c : objid) (traj : list float) :
  simulate libm_pow (ReactionSystem_init rs) initial_concentrations time_points
  = Ok res ->
  res !! c = Some traj ->
  length traj = Nat.max 1 (length time_points)
  /\ (time_points <> [] -> length traj = length time_points)
  /\ exists first,
       traj !! 0%nat = Some first
       /\ first = default 0%float (initial_concentrations !! c)
       /\ (is_nan first = false ->
           (first =? default 0%float (initial_concentrations !! c))%float
           = true).
Proof.
  intros Hsim Hc. apply simulate_inv in Hsim as (rows & -> & Hlen & _).
  rewrite lookup_columns in Hc.
  destruct (decide (c ∈ _)) as [Hin|]; [|done]. injection Hc as <-.
  simpl. rewrite length_fmap, Hlen. repeat split.
  - lia.
  - intros Hne. destruct time_points; [done|]. simpl. lia.
  - exists (default 0%float (initial_concentrations !! c)).
    split; [|split; [done|]].
    + unfold conc_of at 1, first_row. by rewrite lookup_keyed, decide_True.
    + unfold is_nan. by intros ->%negb_false_iff.
Qed.

(** C5 (as the code has it). Every value of a returned trajectory at a step
    index of 1 or more is [>= 0.0]; the value at index 0 is the initial
    concentration as given (0.0 for a compound without one), so it is
    [>= 0.0] when that is. *)
Theorem simulate_nonneg (rs : list Reaction)
    (initial_concentrations : gmap objid float) (time_points : list float)
    (res : gmap objid (list float)) (c : objid) (traj : list float)
    (i : nat) (v : float) :
  simulate libm_pow (ReactionSystem_init rs) initial_concentrations time_points
  = Ok res ->
  res !! c = Some traj ->
  traj !! i = Some v ->
  (i = 0%nat -> nonneg (default 0%float (initial_concentrations !! c))) ->
  nonneg v.
Proof.
  intros Hsim Hc Hi H0. apply simulate_inv in Hsim as (rows & -> & _ & Hcl).
  rewrite lookup_columns in Hc.
  destruct (decide (c ∈ _)) as [Hin|]; [|done]. injection Hc as <-.
  destruct i as [|j]; simpl in Hi.
  - injection Hi as <-. unfold conc_of at 1, first_row.
    rewrite lookup_keyed, decide_True by done. by apply H0.
  - rewrite list_lookup_fmap in Hi.
    destruct (rows !! j) as [row|] eqn:Hrow; [|done]. injection Hi as <-.
    eapply Forall_lookup_1 in Hcl; [|exact Hrow].
    destruct (Hcl c Hin) as [x Hx]. unfold conc_of. rewrite Hx. simpl.
    apply max0_nonneg.
Qed.

(** C10. The keys of a returned result are exactly the compounds that are
    a reactant or a product of some reaction of the system; an entry of
    [initial_concentrations] for any other compound is not in the result
    and does not change it. *)
Theorem simulate_keys (rs : list Reaction)
    (initial_concentrations : gmap objid float) (time_points : list float)
    (res : gmap objid (list float)) :
  simulate libm_pow (ReactionSystem_init rs) initial_concentrations time_points
  = Ok res ->
  (forall c, c ∈ dom res
             <-> exists r, r ∈ rs /\ (c ∈ dict_keys (reactants r)
                                      \/ c ∈ dict_keys (products r)))
  /\ (forall c x,
        (forall r, r ∈ rs -> (c ∉ dict_keys (reactants r))
                             /\ (c ∉ dict_keys (products r))) ->
        res !! c = None
        /\ simulate libm_pow (ReactionSystem_init rs)
                    (<[c := x]> initial_concentrations) time_points
           = Ok res).
Proof.
  intros Hsim. pose proof Hsim as Hinv.
  apply simulate_inv in Hinv as (rows & Hres & _ & _).
  assert (forall c, c ∈ dom res <-> c ∈ all_compounds (ReactionSystem_init rs))
    as Hdom.
  { intros c. rewrite elem_of_dom, Hres, lookup_columns.
    destruct (decide (c ∈ _)); split; eauto; [by intros [? ?]|done]. }
  split.
  - intros c. by rewrite Hdom, init_all_compounds.
  - intros c x Hnone.
    assert (c ∉ all_compounds (ReactionSystem_init rs)) as Hn.
    { rewrite init_all_compounds. intros (r & Hr & Hc).
      destruct (Hnone r Hr). tauto. }
    split.
    + apply not_elem_of_dom. by rewrite Hdom.
    + rewrite <- Hsim. unfold simulate. f_equal.
      apply map_eq. intros c'. rewrite !lookup_keyed.
      destruct (decide (c' ∈ _)) as [Hin|]; [|done].
      rewrite lookup_insert_ne; [done|]. by intros ->.
Qed.

(** A system without reactions has no compounds, and [simulate] returns the
    empty mapping. *)
Lemma simulate_no_reactions (initial_concentrations : gmap objid float)
    (time_points : list float) :
  simulate libm_pow (ReactionSystem_init []) initial_concentrations time_points
  = Ok ∅.
Proof.
  assert (forall prev t_p ts,
            is_Ok (later_rows libm_pow (ReactionSystem_init []) prev t_p ts))
    as Hrows.
  { intros prev t_p ts. revert prev t_p.
    induction ts as [|t ts IH]; intros prev t_p; simpl; [by eexists|].
    unfold next_row. simpl. rewrite elements_empty. simpl.
    destruct (IH ∅ t) as [rows ->]. by eexists. }
  apply simulate_rows.
  assert (forall rows, ∅ = columns (ReactionSystem_init []) rows) as Hempty.
  { intros rows. apply map_eq. intros c.
    rewrite lookup_columns, lookup_empty, decide_False; [done|].
    apply not_elem_of_empty. }
  destruct time_points as [|t0 ts].
  - exists []. split; [done|apply Hempty].
  - destruct (Hrows (first_row (ReactionSystem_init []) initial_concentrations)
                t0 ts) as [rows Hr].
    exists rows. split; [done|apply Hempty].
Qed.
End SimulateClaims.

Section SimulateExamples.
Import reaction trace spec examples.

Example simulate_a_plus_b_C :
  trajectory_of (simulate pow_small system_ab initial_ab [0; 1; 2]%float) C
  = Some [0; 0.05; 0.09275]%float.
Proof. vm_compute. reflexivity. Qed.

Example euler_reference_a_plus_b_C :
  trajectory_of (euler_reference pow_small [a_plus_b] initial_ab [0; 1; 2]%float) C
  = Some [0; 0.05; 0.09275]%float.
Proof. vm_compute. reflexivity. Qed.

Example simulate_a_plus_b_A :
  trajectory_of (simulate pow_small system_ab initial_ab [0; 1; 2]%float) A
  = Some [1; 0.95; 0.90725]%float.
Proof. vm_compute. reflexivity. Qed.

Lemma simulate_lengths_witness :
  match trajectory_of
          (simulate pow_small system_ab initial_ab [0; 1; 2]%float) C with
  | Some traj =>
      length traj = Nat.max 1 3
      /\ ([0; 1; 2]%float <> [] -> length traj = 3%nat)
      /\ exists first,
           traj !! 0%nat = Some first
           /\ first = default 0%float (initial_ab !! C)
           /\ (is_nan first = false ->
               (first =? default 0%float (initial_ab !! C))%float = true)
  | None => False
  end.
Proof.
  destruct (simulate pow_small system_ab initial_ab [0; 1; 2]%float)
    as [res|e] eqn:Hsim; simpl.
  - destruct (res !! C) as [traj|] eqn:Hc.
    + exact (simulate_lengths pow_small [a_plus_b] initial_ab
               [0; 1; 2]%float res C traj Hsim Hc).
    + vm_compute in Hsim. injection Hsim as <-. vm_compute in Hc. discriminate.
  - vm_compute in Hsim. discriminate.
Defined.

(** C4 as stated fails on the empty list of time points: the call is
    accepted and every trajectory has one entry. *)
Lemma simulate_empty_time_points :
  exists traj,
    trajectory_of (simulate pow_small system_ab initial_ab []) A = Some traj
    /\ length traj <> length ([] : list float).
Proof. exists [1%float]. split; [vm_compute; reflexivity|discriminate]. Qed.

(** C5 as stated fails at step 0: a negative initial concentration is
    stored as it is. *)
Lemma simulate_negative_initial :
  exists traj v,
    trajectory_of
      (simulate pow_small system_ab initial_negative [0; 1]%float) A
    = Some traj
    /\ traj !! 0%nat = Some v
    /\ ~ nonneg v.
Proof.
  exists [(-1)%float; 0%float], (-1)%float.
  split; [vm_compute; reflexivity|]. split; [reflexivity|].
  unfold nonneg. vm_compute. discriminate.
Qed.

Lemma simulate_nonneg_witness :
  match trajectory_of
          (simulate pow_small system_ab initial_ab [0; 1; 2]%float) C with
  | Some traj => match traj !! 2%nat with
                 | Some v => nonneg v
                 | None => False
                 end
  | None => False
  end.
Proof.
  destruct (simulate pow_small system_ab initial_ab [0; 1; 2]%float)
    as [res|e] eqn:Hsim; simpl.
  - destruct (res !! C) as [traj|] eqn:Hc.
    + destruct (traj !! 2%nat) as [v|] eqn:Hv.
      * apply (simulate_nonneg pow_small [a_plus_b] initial_ab
                 [0; 1; 2]%float res C traj 2 v Hsim Hc Hv).
        intros H. discriminate H.
      * vm_compute in Hsim. injection Hsim as <-. vm_compute in Hc.
        injection Hc as <-. discriminate Hv.
    + vm_compute in Hsim. injection Hsim as <-. vm_compute in Hc. discriminate.
  - vm_compute in Hsim. discriminate.
Defined.

Lemma simulate_keys_witness :
  match simulate pow_small system_ab initial_ab [0; 1; 2]%float with
  | Ok res =>
      (forall c, c ∈ dom res
                 <-> exists r, r ∈ [a_plus_b]
                               /\ (c ∈ dict_keys (reactants r)
                                   \/ c ∈ dict_keys (products r)))
      /\ (forall c x,
            (forall r, r ∈ [a_plus_b] -> (c ∉ dict_keys (reactants r))
                                         /\ (c ∉ dict_keys (products r))) ->
            res !! c = None
            /\ simulate pow_small system_ab (<[c := x]> initial_ab)
                        [0; 1; 2]%float
               = Ok res)
  | Raise _ => False
  end.
Proof.
  destruct (simulate pow_small system_ab initial_ab [0; 1; 2]%float)
    as [res|e] eqn:Hsim.
  - exact (simulate_keys pow_small [a_plus_b] initial_ab [0; 1; 2]%float res
             Hsim).
  - vm_compute in Hsim. discriminate.
Defined.

Lemma a_plus_b_dicts (r : Reaction) :
  r ∈ [a_plus_b] ->
  NoDup (dict_keys (reactants r)) /\ NoDup (dict_keys (products r)).
Proof.
  intros ->%list_elem_of_singleton.
  split; apply (bool_decide_unpack _); vm_compute; reflexivity.
Qed.

Lemma simulate_is_forward_euler_witness :
  match simulate pow_small system_ab initial_ab [0; 1; 2]%float with
  | Ok res =>
      euler_reference pow_small [a_plus_b] initial_ab [0; 1; 2]%float = Ok res
  | Raise _ => False
  end.
Proof.
  destruct (simulate pow_small system_ab initial_ab [0; 1; 2]%float)
    as [res|e] eqn:Hsim.
  - by apply (simulate_is_forward_euler pow_small [a_plus_b] initial_ab
                [0; 1; 2]%float a_plus_b_dicts).
  - vm_compute in Hsim. discriminate.
Defined.

Lemma huge_coefficient_simulate (libm_pow : float -> float -> result float) :
  simulate libm_pow (ReactionSystem_init [huge_coefficient]) initial_ab
           [0; 1]%float
  = Raise OverflowError.
Proof. vm_compute. reflexivity. Qed.

(** C1 as stated fails: on non-negative initial concentrations and two
    increasing time points [simulate] raises [OverflowError] and returns
    no trajectories. *)
Lemma simulate_overflow :
  (forall c, nonneg (conc_of initial_ab c))
  /\ (0 <? 1)%float = true
  /\ simulate pow_small (ReactionSystem_init [huge_coefficient]) initial_ab
              [0; 1]%float
     = Raise OverflowError
  /\ (forall res,
        simulate pow_small (ReactionSystem_init [huge_coefficient]) initial_ab
                 [0; 1]%float
        <> Ok res).
Proof.
  split; [|split; [reflexivity|split]].
  - intros c. unfold conc_of, initial_ab.
    destruct (decide (c = A)) as [->|HA]; [reflexivity|].
    rewrite lookup_insert_ne by done.
    destruct (decide (c = B)) as [->|HB]; [reflexivity|].
    rewrite lookup_insert_ne by done.
    destruct (decide (c = C)) as [->|HC]; [reflexivity|].
    rewrite lookup_insert_ne by done. reflexivity.
  - apply huge_coefficient_simulate.
  - intros res. rewrite huge_coefficient_simulate. discriminate.
Qed.


Example simulate_ignores_unused :
  trajectory_of
    (simulate pow_small system_ab (<[D := 7%float]> initial_ab)
              [0; 1; 2]%float) D
  = None.
Proof. vm_compute. reflexivity. Qed.
End SimulateExamples.

(** ** ChemicalCalculator.simulate_reactions *)

Section EmptySystem.
Import reaction.
Variable libm_pow : float -> float -> result float.
Variable np_linspace : float -> Z -> result (list float).

(** C6 (as the code has it). The rejection of an empty system is in the
    calculator: with no reaction defined, [simulate_reactions] raises
    [ValueError] before the time points are built and returns nothing.
    [ReactionSystem.simulate] itself has no such check: on a system without
    reactions it returns the empty mapping. *)
Theorem empty_system (self : chem_calculator.ChemicalCalculator)
    (time_end : float) (time_steps : Z)
    (initial_concentrations : gmap objid float) (time_points : list float) :
  chem_calculator.reactions self = [] ->
  chem_calculator.simulate_reactions libm_pow np_linspace self time_end
                                     time_steps
  = Raise ValueError
  /\ simulate libm_pow (ReactionSystem_init (chem_calculator.reactions self))
              initial_concentrations time_points
     = Ok ∅.
Proof.
  intros Hnone. unfold chem_calculator.simulate_reactions. rewrite Hnone.
  split; [done|]. apply simulate_no_reactions.
Qed.
End EmptySystem.

Section EmptySystemExamples.
Import reaction examples.

Example simulate_reactions_ab :
  match chem_calculator.simulate_reactions pow_small linspace_small
          calculator_ab 2 3 with
  | Ok (time_points, results) =>
      time_points = [0; 1; 2]%float
      /\ results !! C = Some [0; 0.05; 0.09275]%float
  | Raise _ => False
  end.
Proof. vm_compute. split; reflexivity. Qed.

Lemma empty_system_witness :
  chem_calculator.simulate_reactions pow_small linspace_small
    calculator_without_reactions 100 1000
  = Raise ValueError
  /\ simulate pow_small
       (ReactionSystem_init
          (chem_calculator.reactions calculator_without_reactions))
       initial_ab [0; 1]%float
     = Ok ∅.
Proof.
  apply (empty_system pow_small linspace_small calculator_without_reactions).
  reflexivity.
Defined.

(** C6 as stated fails for [ReactionSystem.simulate]: with zero reactions
    the call does not fail, it returns a mapping (the empty one). *)
Lemma simulate_empty_system_returns :
  simulate pow_small (ReactionSystem_init []) initial_ab [0; 1]%float = Ok ∅.
Proof. apply simulate_no_reactions. Qed.
End EmptySystemExamples.

(** ** chemical_compound.py *)

Section MolarMass.
Import chemical_compound spec.
Local Open Scope string_scope.

Lemma token_shape_isalpha (element : string) :
  token_shape element -> isalpha element = true.
Proof.
  intros (c & Hc & [->|(c2 & Hc2 & ->)]); simpl; unfold char_isalpha;
    rewrite Hc; [done|]. rewrite Hc2. simpl. by rewrite orb_true_r.
Qed.

#[local] Arguments match_token : simpl never.

Lemma match_token_shape (s element count : string) :
  match_token s = Some (element, count) -> token_shape element.
Proof.
  destruct s as [|c s1]; [done|]. unfold match_token.
  destruct (is_upper c) eqn:Hc; [|done].
  destruct s1 as [|c2 s2].
  - intros [= <- _]. exists c. auto.
  - destruct (is_lower c2) eqn:Hc2; intros [= <- _]; exists c; eauto.
Qed.

Lemma findall_from_shape (skip : nat) (s : string) :
  Forall (fun m => token_shape m.1) (findall_from skip s).
Proof.
  revert skip. induction s as [|c rest IH]; intros skip; simpl; [constructor|].
  destruct skip as [|k]; [|apply IH].
  destruct (match_token (String c rest)) as [[element count]|] eqn:Hm;
    [|apply IH].
  constructor; [|apply IH]. simpl. by apply match_token_shape in Hm.
Qed.

(** The loop of [_parse_formula] stops at the first count that [int]
    rejects, and otherwise stores every token. *)
Lemma parse_tokens_eq (tokens : list (string * string))
    (composition0 : list (string * Z)) :
  foldM (fun composition '(element, count) =>
           count ← match count with
                   | EmptyString => Ok 1
                   | _ => int_of_str count
                   end;
           Ok (dict_set element count composition))
        composition0 tokens
  = if existsb (fun m : string * string => long_count m.2) tokens
    then Raise ValueError
    else Ok (fold_left (fun composition '(element, count) =>
                          dict_set element (token_count count) composition)
                       tokens composition0).
Proof.
  revert composition0.
  induction tokens as [|[element count] tokens IH]; intros composition0;
    [done|].
  cbn [foldM existsb fold_left snd].
  destruct count as [|c count'].
  - cbn [mbind result_bind]. rewrite IH. reflexivity.
  - unfold int_of_str, long_count at 1, token_count.
    destruct (int_max_str_digits <? Z.of_nat (String.length (String c count')))%Z;
      cbn [mbind result_bind orb]; [done|]. apply IH.
Qed.

Lemma parse_formula_eq (formula : string) :
  _parse_formula formula
  = if has_long_count formula then Raise ValueError
    else Ok (composition_of (findall formula)).
Proof. apply parse_tokens_eq. Qed.

Lemma parse_formula_Ok (formula : string) (composition : list (string * Z)) :
  _parse_formula formula = Ok composition ->
  composition = composition_of (findall formula)
  /\ has_long_count formula = false.
Proof.
  rewrite parse_formula_eq. destruct (has_long_count formula); [done|].
  by intros [= <-].
Qed.

Lemma init_Ok (formula : string) (name : option string)
    (given : option float) (self : ChemicalCompound) :
  __init__ formula name given = Ok self ->
  chemical_compound.formula self = formula
  /\ molar_mass self = given
  /\ _parse_formula formula = Ok (composition self)
  /\ composition self = composition_of (findall formula)
  /\ has_long_count formula = false.
Proof.
  unfold __init__. intros H. apply bind_Ok in H as (comp & Hparse & [= <-]).
  simpl. do 3 (split; [done|]). by apply parse_formula_Ok.
Qed.

Lemma init_Raise (formula : string) (name : option string)
    (given : option float) (e : exn) :
  __init__ formula name given = Raise e ->
  e = ValueError /\ has_long_count formula = true.
Proof.
  unfold __init__. rewrite parse_formula_eq.
  destruct (has_long_count formula); [|done]. by intros [= <-].
Qed.

Lemma init_returns (formula : string) (name : option string)
    (given : option float) :
  has_long_count formula = false ->
  exists self, __init__ formula name given = Ok self
               /\ composition self = composition_of (findall formula)
               /\ molar_mass self = given.
Proof.
  intros Hshort. unfold __init__. rewrite parse_formula_eq, Hshort. simpl.
  eexists. split; [reflexivity|]. split; reflexivity.
Qed.

Lemma parse_formula_shape (formula : string) :
  Forall (fun item => token_shape item.1) (composition_of (findall formula)).
Proof.
  apply Forall_forall. intros [element count] Hin. simpl.
  assert (element ∈ (findall formula).*1) as Hkey.
  { assert (element ∈ (composition_of (findall formula)).*1) as Hk
      by (apply list_elem_of_fmap; by exists (element, count)).
    unfold composition_of in Hk.
    apply (fold_set_keys token_count) in Hk as [Hk|Hk]; [done|].
    by apply elem_of_nil in Hk. }
  apply list_elem_of_fmap in Hkey as ([el ds] & -> & Hm).
  pose proof (findall_from_shape 0 formula) as Hall.
  rewrite Forall_forall in Hall. by apply (Hall (el, ds)).
Qed.

Lemma add_element_masses_Raise (items : list (string * Z)) (total : float)
    (e : exn) :
  Forall (fun item => token_shape item.1) items ->
  foldM add_element_mass total items = Raise e ->
  e = OverflowError
  /\ exists element count, (element, count) ∈ items
                           /\ float_of_int count = Raise OverflowError.
Proof.
  revert total. induction items as [|[element count] items IH];
    intros total Hshape Hfold; cbn [foldM] in Hfold; [done|].
  apply Forall_cons in Hshape as [Hel Hshape]. simpl in Hel.
  assert (forall x, add_element_mass total (element, count) = Raise x ->
                    x = OverflowError
                    /\ float_of_int count = Raise OverflowError) as Hstep.
  { intros x. unfold add_element_mass.
    rewrite (token_shape_isalpha _ Hel).
    destruct (dict_get element atomic_masses) as [m|].
    - destruct (float_mul_int m count) as [t|e'] eqn:Ht; simpl; [done|].
      intros [= ->]. by apply float_mul_int_Raise in Ht.
    - destruct (float_mul_int 100 count) as [t|e'] eqn:Ht; simpl; [done|].
      intros [= ->]. by apply float_mul_int_Raise in Ht. }
  destruct (add_element_mass total (element, count)) as [total'|e'] eqn:Hadd;
    cbn [mbind result_bind] in Hfold.
  - destruct (IH _ Hshape Hfold) as (-> & el & k & Hin & Hk).
    split; [done|]. exists el, k. split; [|done]. apply elem_of_cons; auto.
  - injection Hfold as ->. destruct (Hstep e eq_refl) as [-> Hk].
    split; [done|]. exists element, count. split; [|done].
    apply elem_of_cons; auto.
Qed.

(** C7. For a constructed compound, a call that returns leaves the mass
    stored in the object, and a second call returns the same mass and the
    same object, the composition being the one parsed at construction; a
    mass given to the constructor is the one returned. *)
Theorem calculate_molar_mass_cached (formula : string) (name : option string)
    (given : option float) (self : ChemicalCompound) (m : float)
    (self' : ChemicalCompound) :
  __init__ formula name given = Ok self ->
  calculate_molar_mass self = Ok (m, self') ->
  calculate_molar_mass self' = Ok (m, self')
  /\ molar_mass self' = Some m
  /\ _parse_formula formula = Ok (composition self')
  /\ (forall m0, given = Some m0 -> m = m0 /\ self' = self).
Proof.
  intros Hinit. apply init_Ok in Hinit as (_ & Hgiven & Hparse & _).
  unfold calculate_molar_mass at 1. rewrite Hgiven.
  destruct given as [m0|].
  - intros [= <- <-].
    split; [unfold calculate_molar_mass; by rewrite Hgiven|].
    do 2 (split; [done|]). by intros m1 [= <-].
  - destruct (is_generic (composition self)).
    + intros [= <- <-]. do 3 (split; [done|]). by intros m1 [=].
    + destruct (foldM add_element_mass 0%float (composition self))
        as [total|e]; simpl; [|done].
      intros [= <- <-]. do 3 (split; [done|]). by intros m1 [=].
Qed.

(** C8. A formula that is one uppercase letter outside the table of atomic
    masses is accepted by the constructor and has molar mass exactly
    100.0. *)
Theorem generic_compound_mass (c : ascii) (name : option string) :
  is_upper c = true ->
  dict_mem (String c EmptyString) atomic_masses = false ->
  exists self self',
    __init__ (String c EmptyString) name None = Ok self
    /\ calculate_molar_mass self = Ok (100%float, self')
    /\ molar_mass self' = Some 100%float.
Proof.
  intros Hc Hnot.
  assert (_parse_formula (String c EmptyString) = Ok [(String c EmptyString, 1)])
    as Hparse.
  { unfold _parse_formula, findall, findall_from, match_token.
    by rewrite Hc. }
  eexists. eexists. split; [unfold __init__; rewrite Hparse; reflexivity|].
  unfold calculate_molar_mass. simpl.
  unfold is_generic. simpl. rewrite Hnot. simpl.
  unfold char_isalpha. rewrite Hc. simpl. split; reflexivity.
Qed.

(** C9 (as the code has it). Every key of the composition of a constructed
    compound is one uppercase letter with at most one lowercase letter
    behind it, so the [ValueError] of the unknown-element branch cannot be
    raised. The call returns unless a count is too large to be converted
    to a float, and then it raises [OverflowError]. *)
Theorem calculate_molar_mass_raises (formula : string) (name : option string)
    (given : option float) (self : ChemicalCompound) :
  __init__ formula name given = Ok self ->
  Forall (fun item => token_shape item.1 /\ isalpha item.1 = true)
         (composition self)
  /\ calculate_molar_mass self <> Raise ValueError
  /\ (forall e, calculate_molar_mass self = Raise e ->
                e = OverflowError
                /\ exists element count,
                     (element, count) ∈ composition self
                     /\ float_of_int count = Raise OverflowError)
  /\ ((forall element count,
         (element, count) ∈ composition self ->
         is_Ok (float_of_int count)) ->
      is_Ok (calculate_molar_mass self)).
Proof.
  intros Hinit. apply init_Ok in Hinit as (_ & _ & _ & Hcomp & _).
  pose proof (parse_formula_shape formula) as Hshape. rewrite <- Hcomp in Hshape.
  assert (forall e, calculate_molar_mass self = Raise e ->
                e = OverflowError
                /\ exists element count,
                     (element, count) ∈ composition self
                     /\ float_of_int count = Raise OverflowError) as Hraise.
  { intros e. unfold calculate_molar_mass.
    destruct (molar_mass self); [done|].
    destruct (is_generic _); [done|].
    destruct (foldM add_element_mass 0%float (composition self))
      as [total|e'] eqn:Hfold; simpl; [done|].
    intros [= ->]. by apply add_element_masses_Raise in Hfold. }
  split; [|split; [|split; [exact Hraise|]]].
  - eapply Forall_impl; [exact Hshape|].
    intros item Hitem. split; [done|]. by apply token_shape_isalpha.
  - intros Hv. by destruct (Hraise _ Hv).
  - intros Hfit. destruct (calculate_molar_mass self) as [r|e] eqn:Hcall;
      [by eexists|].
    destruct (Hraise e eq_refl) as (_ & element & count & Hin & Hover).
    destruct (Hfit element count Hin) as [f Hf]. congruence.
Qed.
End MolarMass.

Section MolarMassExamples.
Import chemical_compound examples.
Local Open Scope string_scope.

Example parse_glucose :
  _parse_formula "C6H12O6" = Ok [("C", 6); ("H", 12); ("O", 6)].
Proof. reflexivity. Qed.

Example mass_NaCl :
  mass_of (__init__ "NaCl" None None ≫= calculate_molar_mass)
  = Some (0 + 22.99 + 35.45)%float.
Proof. vm_compute. reflexivity. Qed.

Example mass_given :
  mass_of (__init__ "H2O" (Some "water") (Some 18.5%float)
             ≫= calculate_molar_mass)
  = Some 18.5%float.
Proof. reflexivity. Qed.

Lemma calculate_molar_mass_cached_witness :
  match __init__ "NaCl" None None with
  | Ok self =>
      match calculate_molar_mass self with
      | Ok (m, self') =>
          calculate_molar_mass self' = Ok (m, self')
          /\ molar_mass self' = Some m
          /\ _parse_formula "NaCl" = Ok (composition self')
          /\ (forall m0, None = Some m0 -> m = m0 /\ self' = self)
      | Raise _ => False
      end
  | Raise _ => False
  end.
Proof.
  destruct (__init__ "NaCl" None None) as [self|e] eqn:Hinit.
  - destruct (calculate_molar_mass self) as [[m self']|e] eqn:Hcall.
    + exact (calculate_molar_mass_cached "NaCl" None None self m self'
               Hinit Hcall).
    + vm_compute in Hinit. injection Hinit as <-. vm_compute in Hcall.
      discriminate.
  - vm_compute in Hinit. discriminate.
Defined.

Lemma generic_compound_mass_witness :
  exists self self',
    __init__ "A" None None = Ok self
    /\ calculate_molar_mass self = Ok (100%float, self')
    /\ molar_mass self' = Some 100%float.
Proof.
  apply (generic_compound_mass "A"%char None); reflexivity.
Defined.

Lemma calculate_molar_mass_raises_witness :
  match __init__ "H2O" None None with
  | Ok self =>
      calculate_molar_mass self <> Raise ValueError
      /\ ((forall element count,
             (element, count) ∈ composition self ->
             is_Ok (float_of_int count)) ->
          is_Ok (calculate_molar_mass self))
  | Raise _ => False
  end.
Proof.
  destruct (__init__ "H2O" None None) as [self|e] eqn:Hinit.
  - destruct (calculate_molar_mass_raises "H2O" None None self Hinit)
      as (_ & Hnot & _ & Hfit).
    split; [exact Hnot|exact Hfit].
  - vm_compute in Hinit. discriminate.
Defined.

(** C9 as stated fails: the compound is constructed and the call raises
    [OverflowError]. *)
Lemma calculate_molar_mass_overflow :
  match __init__ huge_count_formula None None with
  | Ok self => calculate_molar_mass self = Raise OverflowError
  | Raise _ => False
  end.
Proof. vm_compute. reflexivity. Qed.
End MolarMassExamples.

(** ** More about chemical_compound.py *)

Section MoreParsing.
Import chemical_compound spec.
Local Open Scope string_scope.

#[local] Arguments match_token : simpl never.

Lemma parse_formula_get (formula element : string) :
  dict_get element (composition_of (findall formula))
  = token_count <$> last_value element (findall formula).
Proof.
  etrans; [exact (fold_set_get_last token_count (findall formula) [] element)|].
  by destruct (last_value element (findall formula)).
Qed.

Lemma parse_formula_NoDup (formula : string) :
  NoDup (dict_keys (composition_of (findall formula))).
Proof.
  exact (fold_set_NoDup token_count (findall formula) [] (NoDup_nil_2)).
Qed.

Lemma take_digits_digits (s : string) : all_chars is_digit (take_digits s) = true.
Proof.
  induction s as [|c s IH]; simpl; [done|].
  destruct (is_digit c) eqn:Hc; simpl; [|done]. by rewrite Hc.
Qed.

Lemma take_digits_all (s : string) :
  all_chars is_digit s = true -> take_digits s = s.
Proof.
  induction s as [|c s IH]; simpl; [done|].
  intros [Hc Hs]%andb_true_iff. rewrite Hc. f_equal. by apply IH.
Qed.

Lemma match_token_digits (s element count : string) :
  match_token s = Some (element, count) -> all_chars is_digit count = true.
Proof.
  destruct s as [|c s1]; [done|]. unfold match_token.
  destruct (is_upper c); [|done].
  destruct s1 as [|c2 s2].
  - by intros [= _ <-].
  - destruct (is_lower c2); intros [= _ <-];
      [apply take_digits_digits|apply (take_digits_digits (String c2 s2))].
Qed.

Lemma findall_from_digits (skip : nat) (s : string) :
  Forall (fun m => all_chars is_digit m.2 = true) (findall_from skip s).
Proof.
  revert skip. induction s as [|c rest IH]; intros skip; simpl; [constructor|].
  destruct skip as [|k]; [|apply IH].
  destruct (match_token (String c rest)) as [[element count]|] eqn:Hm;
    [|apply IH].
  constructor; [|apply IH]. simpl. by apply match_token_digits in Hm.
Qed.

Lemma digit_value_nonneg (c : ascii) : is_digit c = true -> 0 <= digit_value c.
Proof.
  unfold is_digit, in_range, digit_value.
  intros [Hlo _]%andb_true_iff. apply N.leb_le in Hlo. lia.
Qed.

Lemma int_of_digits_nonneg (s : string) (acc : Z) :
  0 <= acc -> all_chars is_digit s = true -> 0 <= int_of_digits acc s.
Proof.
  revert acc. induction s as [|c s IH]; intros acc Hacc; simpl; [done|].
  intros [Hc Hs]%andb_true_iff. apply IH; [|done].
  pose proof (digit_value_nonneg c Hc). lia.
Qed.

Lemma token_count_nonneg (count : string) :
  all_chars is_digit count = true -> 0 <= token_count count.
Proof.
  intros Hd. unfold token_count. destruct count; [lia|].
  by apply int_of_digits_nonneg.
Qed.

Lemma findall_from_skip_all (skip : nat) (s : string) :
  (String.length s <= skip)%nat -> findall_from skip s = [].
Proof.
  revert skip. induction s as [|c s IH]; intros skip Hlen; simpl; [done|].
  simpl in Hlen. destruct skip as [|k]; [lia|]. apply IH. lia.
Qed.

Lemma findall_from_no_upper (skip : nat) (s : string) :
  all_chars (fun c => negb (is_upper c)) s = true -> findall_from skip s = [].
Proof.
  revert skip. induction s as [|c s IH]; intros skip; simpl; [done|].
  intros [Hc Hs]%andb_true_iff. destruct skip as [|k]; [|by apply IH].
  unfold match_token. apply negb_true_iff in Hc. rewrite Hc. by apply IH.
Qed.

Lemma digit_not_lower (c : ascii) : is_digit c = true -> is_lower c = false.
Proof.
  unfold is_digit, is_lower, in_range.
  intros [_ Hhi]%andb_true_iff. apply N.leb_le in Hhi.
  apply andb_false_iff. left. apply N.leb_gt. lia.
Qed.

(** In a parsed composition a repeated element keeps the count of its last
    token: the counts of the occurrences are not added. An element is a key
    exactly when the formula has a token for it. *)
Theorem parse_formula_last_token (formula element : string)
    (composition : list (string * Z)) :
  _parse_formula formula = Ok composition ->
  dict_get element composition
  = token_count <$> last_value element (findall formula)
  /\ (element ∈ dict_keys composition
      <-> element ∈ (findall formula).*1).
Proof.
  intros [-> _]%parse_formula_Ok.
  split; [apply parse_formula_get|].
  unfold dict_keys.
  etrans; [exact (fold_set_keys token_count (findall formula) [] element)|].
  split; [|auto]. intros [?|Hin]; [done|]. by apply elem_of_nil in Hin.
Qed.

Example parse_acetic_acid :
  _parse_formula "CH3COOH" = Ok [("C", 1); ("H", 1); ("O", 1)].
Proof. reflexivity. Qed.

Lemma parse_formula_last_token_witness :
  dict_get "H" [("C", 1); ("H", 1); ("O", 1)]
  = token_count <$> last_value "H" (findall "CH3COOH")
  /\ ("H" ∈ dict_keys [("C", 1); ("H", 1); ("O", 1)]
      <-> "H" ∈ (findall "CH3COOH").*1).
Proof.
  apply (parse_formula_last_token "CH3COOH" "H"). reflexivity.
Defined.

(** A parsed composition is a dictionary (no element twice) and none of its
    counts is negative. *)
Theorem parse_formula_counts (formula : string)
    (composition : list (string * Z)) :
  _parse_formula formula = Ok composition ->
  NoDup (dict_keys composition)
  /\ (forall element count, (element, count) ∈ composition -> 0 <= count).
Proof.
  intros [-> _]%parse_formula_Ok.
  split; [apply parse_formula_NoDup|].
  intros element count Hin.
  apply (elem_of_dict_get _ _ _ (parse_formula_NoDup formula)) in Hin.
  rewrite parse_formula_get in Hin.
  destruct (last_value element (findall formula)) as [ds|] eqn:Hlast; [|done].
  injection Hin as <-. apply last_value_elem_of in Hlast.
  pose proof (findall_from_digits 0 formula) as Hall.
  rewrite Forall_forall in Hall. by apply token_count_nonneg, (Hall (element, ds)).
Qed.

Lemma parse_formula_counts_witness :
  NoDup (dict_keys [("C", 6); ("H", 12); ("O", 6)])
  /\ (forall element count,
        (element, count) ∈ [("C", 6); ("H", 12); ("O", 6)] -> 0 <= count).
Proof.
  apply (parse_formula_counts "C6H12O6"). reflexivity.
Defined.

(** The constructor raises exactly when some element of the formula is
    followed by more digits than [int] converts, and then it raises
    [ValueError]; otherwise it returns a compound with the formula, the
    name or else the formula as name, the given molar mass and the
    composition of the tokens. *)
Theorem constructor_raises_on_long_count (formula : string)
    (name : option string) (given : option float) :
  (forall e, __init__ formula name given = Raise e ->
             e = ValueError
             /\ Exists (fun m => int_max_str_digits
                                 < Z.of_nat (String.length m.2))%Z
                       (findall formula))
  /\ (forall self, __init__ formula name given = Ok self ->
        chemical_compound.formula self = formula
        /\ chemical_compound.name self
           = match name with
             | Some (String c n) => String c n
             | _ => formula
             end
        /\ molar_mass self = given
        /\ composition self = composition_of (findall formula)
        /\ Forall (fun m => Z.of_nat (String.length m.2)
                            <= int_max_str_digits)%Z
                  (findall formula))
  /\ (Forall (fun m => Z.of_nat (String.length m.2) <= int_max_str_digits)%Z
             (findall formula) ->
      is_Ok (__init__ formula name given)).
Proof.
  assert (has_long_count formula = true
          <-> Exists (fun m => int_max_str_digits
                               < Z.of_nat (String.length m.2))%Z
                     (findall formula)) as Hlong.
  { unfold has_long_count. rewrite existsb_exists, Exists_exists.
    split; intros (m & Hin & Hm); exists m.
    - split; [by apply list_elem_of_In|]. by apply Z.ltb_lt.
    - split; [by apply list_elem_of_In|]. by apply Z.ltb_lt. }
  assert (has_long_count formula = false
          <-> Forall (fun m => Z.of_nat (String.length m.2)
                               <= int_max_str_digits)%Z
                     (findall formula)) as Hshort.
  { rewrite <- not_true_iff_false, Hlong, <- Forall_Exists_neg.
    apply Forall_iff. intros m. lia. }
  split; [|split].
  - intros e [-> Hl]%init_Raise. split; [done|]. by apply Hlong.
  - intros self Hinit. pose proof Hinit as Hfields.
    apply init_Ok in Hfields as (Hf & Hm & _ & Hc & Hs).
    split; [done|]. split.
    { unfold __init__ in Hinit.
      apply bind_Ok in Hinit as (comp & _ & [= <-]). reflexivity. }
    split; [done|]. split; [done|]. by apply Hshort.
  - intros Hall. apply Hshort in Hall.
    destruct (init_returns formula name given Hall) as (self & -> & _).
    by eexists.
Qed.

Example long_count_raises :
  __init__ examples.long_count_formula None None = Raise ValueError.
Proof. vm_compute. reflexivity. Qed.

(** A formula without an uppercase letter (the empty formula included) is
    accepted: its composition is empty and its molar mass is 0.0. *)
Theorem no_uppercase_formula (formula : string) (name : option string) :
  all_chars (fun c => negb (is_upper c)) formula = true ->
  _parse_formula formula = Ok []
  /\ exists self self',
       __init__ formula name None = Ok self
       /\ calculate_molar_mass self = Ok (0%float, self')
       /\ molar_mass self' = Some 0%float.
Proof.
  intros Hno.
  assert (_parse_formula formula = Ok []) as Hparse.
  { unfold _parse_formula, findall. by rewrite findall_from_no_upper. }
  split; [done|]. eexists. eexists.
  split; [unfold __init__; rewrite Hparse; reflexivity|].
  unfold calculate_molar_mass. simpl. split; reflexivity.
Qed.

Lemma no_uppercase_formula_witness :
  _parse_formula "h2o" = Ok []
  /\ exists self self',
       __init__ "h2o" None None = Ok self
       /\ calculate_molar_mass self = Ok (0%float, self')
       /\ molar_mass self' = Some 0%float.
Proof. apply (no_uppercase_formula "h2o" None). reflexivity. Defined.

(** For a single uppercase letter outside the table, followed by digits:
    with at most 4300 digits the compound is constructed and the default
    mass is 100.0 whatever the count, which is stored in the composition
    and not used; with more digits the constructor raises [ValueError]. *)
Theorem generic_compound_ignores_count (c : ascii) (digits : string)
    (name : option string) :
  is_upper c = true ->
  dict_mem (String c EmptyString) atomic_masses = false ->
  all_chars is_digit digits = true ->
  ((Z.of_nat (String.length digits) <= int_max_str_digits)%Z ->
   exists self self',
     __init__ (String c digits) name None = Ok self
     /\ calculate_molar_mass self = Ok (100%float, self')
     /\ composition self' = [(String c EmptyString, token_count digits)])
  /\ ((int_max_str_digits < Z.of_nat (String.length digits))%Z ->
      __init__ (String c digits) name None = Raise ValueError).
Proof.
  intros Hc Hnot Hd.
  assert (findall (String c digits) = [(String c EmptyString, digits)])
    as Htokens.
  { unfold findall. cbn [findall_from].
    assert (match_token (String c digits)
            = Some (String c EmptyString, digits)) as ->.
    { unfold match_token. rewrite Hc. destruct digits as [|c2 s2]; [done|].
      simpl in Hd. apply andb_true_iff in Hd as [Hc2 Hs2].
      rewrite (digit_not_lower _ Hc2).
      f_equal. f_equal. apply take_digits_all. simpl. by rewrite Hc2. }
    rewrite findall_from_skip_all by (simpl; lia). reflexivity. }
  assert (has_long_count (String c digits) = long_count digits) as Hlong.
  { unfold has_long_count. rewrite Htokens. simpl. apply orb_false_r. }
  split.
  - intros Hlen.
    assert (_parse_formula (String c digits)
            = Ok [(String c EmptyString, token_count digits)]) as Hparse.
    { rewrite parse_formula_eq, Hlong, Htokens. unfold long_count.
      by rewrite (proj2 (Z.ltb_ge _ _) Hlen). }
    eexists. eexists.
    split; [unfold __init__; rewrite Hparse; reflexivity|].
    unfold calculate_molar_mass. simpl.
    unfold is_generic. simpl. rewrite Hnot. simpl.
    unfold char_isalpha. rewrite Hc. simpl. split; reflexivity.
  - intros Hlen. unfold __init__.
    rewrite parse_formula_eq, Hlong. unfold long_count.
    by rewrite (proj2 (Z.ltb_lt _ _) Hlen).
Qed.

Lemma generic_compound_ignores_count_witness :
  (exists self self',
     __init__ "A25" None None = Ok self
     /\ calculate_molar_mass self = Ok (100%float, self')
     /\ composition self' = [("A", token_count "25")])
  /\ __init__ examples.long_count_formula None None = Raise ValueError.
Proof.
  split.
  - apply (generic_compound_ignores_count "A"%char "25" None);
      [reflexivity..|]. vm_compute. discriminate.
  - apply (generic_compound_ignores_count "A"%char
             (string_of_list_ascii (repeat "9"%char 4301)) None);
      [reflexivity|reflexivity|vm_compute; reflexivity|].
    vm_compute. reflexivity.
Defined.

Example two_letter_unknown_uses_count :
  examples.mass_of (__init__ "Xy25" None None ≫= calculate_molar_mass)
  = Some 2500%float.
Proof. vm_compute. reflexivity. Qed.
End MoreParsing.

(** ** More about ReactionSystem.simulate *)

Section MoreSimulation.
Import reaction trace spec.
Variable libm_pow : float -> float -> result float.

Lemma later_rows_prefix (sys : ReactionSystem) (prev : gmap objid float)
    (t_p : float) (ts later : list float) (rows : list (gmap objid float)) :
  later_rows libm_pow sys prev t_p (ts ++ later) = Ok rows ->
  later_rows libm_pow sys prev t_p ts = Ok (take (length ts) rows).
Proof.
  revert prev t_p rows. induction ts as [|t ts IH]; intros prev t_p rows H.
  - simpl. by rewrite take_0.
  - simpl in H. apply bind_Ok in H as (row & Hrow & H).
    apply bind_Ok in H as (rows' & H & [= <-]).
    simpl. rewrite Hrow. simpl. by rewrite (IH _ _ _ H).
Qed.

(** The trajectories up to a time point do not depend on the time points
    after it: simulating a prefix of the time points gives the prefixes of
    the trajectories. *)
Theorem simulate_prefix (rs : list Reaction)
    (initial_concentrations : gmap objid float) (time_points later : list float)
    (res : gmap objid (list float)) :
  simulate libm_pow (ReactionSystem_init rs) initial_concentrations
           (time_points ++ later) = Ok res ->
  exists res',
    simulate libm_pow (ReactionSystem_init rs) initial_concentrations
             time_points = Ok res'
    /\ forall c, res' !! c
                 = take (Nat.max 1 (length time_points)) <$> res !! c.
Proof.
  intros Hsim. apply simulate_rows in Hsim as (rows & Hrows & ->).
  set (sys := ReactionSystem_init rs) in *.
  set (row0 := first_row sys initial_concentrations) in *.
  exists (columns sys (row0 :: take (length time_points - 1) rows)). split.
  - apply simulate_rows. exists (take (length time_points - 1) rows).
    split; [|done]. destruct time_points as [|t0 ts]; [done|].
    simpl in *. rewrite Nat.sub_0_r. by apply later_rows_prefix in Hrows.
  - intros c. rewrite !lookup_columns.
    destruct (decide (c ∈ all_compounds sys)); [|done]. simpl. f_equal.
    replace (Nat.max 1 (length time_points))
      with (S (length time_points - 1)) by lia.
    simpl. f_equal. by rewrite fmap_take.
Qed.

Lemma state_at_columns (sys : ReactionSystem) (R : list (gmap objid float))
    (i : nat) (row : gmap objid float) (c : objid) :
  R !! i = Some row ->
  state_at (columns sys R) i !! c
  = if decide (c ∈ all_compounds sys) then Some (conc_of row c) else None.
Proof.
  intros Hrow. unfold state_at. rewrite lookup_omap, lookup_columns.
  destruct (decide (c ∈ all_compounds sys)); [|done]. simpl.
  by rewrite list_lookup_fmap, Hrow.
Qed.

(** At every time index of a returned result each reaction's rate is the
    full product formula of the concentrations at that index: all compounds
    of the system have a concentration there, so inside [simulate] the
    early return of [calculate_rate] for a missing reactant is not taken. *)
Theorem rate_at_simulated_state (rs : list Reaction)
    (initial_concentrations : gmap objid float) (time_points : list float)
    (res : gmap objid (list float)) (i : nat) (r : Reaction) :
  simulate libm_pow (ReactionSystem_init rs) initial_concentrations time_points
  = Ok res ->
  (i < Nat.max 1 (length time_points))%nat ->
  r ∈ rs ->
  dom (state_at res i) = all_compounds (ReactionSystem_init rs)
  /\ calculate_rate libm_pow r (state_at res i)
     = rate_law libm_pow r (conc_of (state_at res i)).
Proof.
  intros Hsim Hi Hr. apply simulate_inv in Hsim as (rows & -> & Hlen & _).
  set (sys := ReactionSystem_init rs) in *.
  destruct ((first_row sys initial_concentrations :: rows) !! i)
    as [row|] eqn:Hrow.
  2:{ apply lookup_ge_None in Hrow. simpl in Hrow. lia. }
  assert (dom (state_at (columns sys (first_row sys initial_concentrations :: rows)) i)
          = all_compounds sys) as Hdom.
  { apply set_eq. intros c. rewrite elem_of_dom, (state_at_columns _ _ _ _ _ Hrow).
    destruct (decide (c ∈ all_compounds sys)); split; eauto; [by intros [? ?]|done]. }
  split; [exact Hdom|].
  apply calculate_rate_loop_present. intros c Hc.
  assert (c ∈ all_compounds sys) as Hin.
  { apply init_all_compounds. exists r. auto. }
  rewrite <- Hdom in Hin. apply elem_of_dom in Hin as [v Hv].
  unfold conc_of. by rewrite Hv.
Qed.

(** [reaction_order] is never read: giving the reactions other orders
    changes neither the compounds of the system nor the result of
    [simulate]. *)
Theorem reaction_order_unused (order : Reaction -> Z) (rs : list Reaction)
    (initial_concentrations : gmap objid float) (time_points : list float) :
  all_compounds
    (ReactionSystem_init ((fun r => with_reaction_order (order r) r) <$> rs))
  = all_compounds (ReactionSystem_init rs)
  /\ simulate libm_pow
       (ReactionSystem_init ((fun r => with_reaction_order (order r) r) <$> rs))
       initial_concentrations time_points
     = simulate libm_pow (ReactionSystem_init rs) initial_concentrations
                time_points.
Proof.
  set (h := fun r => with_reaction_order (order r) r).
  assert (all_compounds (ReactionSystem_init (h <$> rs))
          = all_compounds (ReactionSystem_init rs)) as Hall.
  { apply set_eq. intros c. rewrite !init_all_compounds. split.
    - intros (r' & Hr' & Hc). apply list_elem_of_fmap in Hr' as (r & -> & Hr).
      exists r. auto.
    - intros (r & Hr & Hc). exists (h r). split; [|done].
      apply list_elem_of_fmap. eauto. }
  split; [exact Hall|].
  unfold simulate. rewrite Hall. apply foldM_ext. intros concs i.
  unfold simulate_step. rewrite Hall.
  destruct (list_getitem time_points i); simpl; [|done].
  destruct (list_getitem time_points (i - 1)); simpl; [|done].
  destruct (dict_comprehension _ _) as [cur|]; simpl; [|done].
  cbn [reactions ReactionSystem_init]. by rewrite foldM_fmap.
Qed.
End MoreSimulation.

(** ** ChemicalCalculator.add_compound and add_reaction *)

Section Registry.
Import chem_calculator trace spec.

Lemma calculate_molar_mass_Ok_inv (self self' : chemical_compound.ChemicalCompound)
    (m : float) :
  chemical_compound.calculate_molar_mass self = Ok (m, self') ->
  chemical_compound.formula self' = chemical_compound.formula self
  /\ chemical_compound.molar_mass self' = Some m.
Proof.
  unfold chemical_compound.calculate_molar_mass.
  destruct (chemical_compound.molar_mass self) as [m0|] eqn:Hm.
  - by intros [= <- <-].
  - destruct (chemical_compound.is_generic _); [by intros [= <- <-]|].
    destruct (foldM _ _ _) as [total|e]; simpl; [|done]. by intros [= <- <-].
Qed.

Lemma calculate_molar_mass_init_Raise (formula : string) (name : option string)
    (given : option float) (self : chemical_compound.ChemicalCompound)
    (e : exn) :
  chemical_compound.__init__ formula name given = Ok self ->
  chemical_compound.calculate_molar_mass self = Raise e ->
  e = OverflowError.
Proof.
  intros Hinit. apply init_Ok in Hinit as (_ & _ & _ & Hcomp & _).
  unfold chemical_compound.calculate_molar_mass.
  destruct (chemical_compound.molar_mass self); [done|].
  destruct (chemical_compound.is_generic _); [done|].
  destruct (foldM chemical_compound.add_element_mass 0%float
              (chemical_compound.composition self))
    as [total|e'] eqn:Hfold; simpl; [done|].
  intros [= ->].
  apply add_element_masses_Raise in Hfold as [-> _]; [done|].
  rewrite Hcomp. apply parse_formula_shape.
Qed.

Lemma add_compound_inv (formula : string) (name : option string)
    (concentration : float) (st st' : State) (r : result objid) :
  add_compound formula name concentration st = (r, st') ->
  match r with
  | Ok o =>
      o = fresh (dom (objects st))
      /\ exists obj,
           chemical_compound.formula obj = formula
           /\ is_Some (chemical_compound.molar_mass obj)
           /\ st' = set_compounds st o obj
                      (dict_set formula
                         {| compound := o; concentration := concentration |}
                         (compounds (calculator st)))
  | Raise e =>
      st' = st
      /\ e = if has_long_count formula then ValueError else OverflowError
  end.
Proof.
  unfold add_compound.
  destruct (chemical_compound.__init__ formula name None) as [self|e]
    eqn:Hinit.
  - pose proof (init_Ok _ _ _ _ Hinit) as (Hf0 & _ & _ & _ & Hshort).
    destruct (chemical_compound.calculate_molar_mass self) as [[m obj]|e]
      eqn:Hcall.
    + intros [= <- <-]. split; [done|]. exists obj.
      apply calculate_molar_mass_Ok_inv in Hcall as [Hf Hm].
      split; [by rewrite Hf|]. split; [by rewrite Hm|done].
    + intros [= <- <-]. split; [done|]. rewrite Hshort.
      by apply (calculate_molar_mass_init_Raise _ _ _ _ _ Hinit) in Hcall.
  - intros [= <- <-]. split; [done|].
    by apply init_Raise in Hinit as [-> ->].
Qed.

Lemma set_compounds_wf (st : State) (o : objid)
    (obj : chemical_compound.ChemicalCompound) (formula : string)
    (concentration : float) :
  registry_wf st ->
  o ∉ dom (objects st) ->
  chemical_compound.formula obj = formula ->
  is_Some (chemical_compound.molar_mass obj) ->
  registry_wf
    (set_compounds st o obj
       (dict_set formula {| compound := o; concentration := concentration |}
                 (compounds (calculator st)))).
Proof.
  intros (Hnd & Hent & Hrs) Hfresh Hf Hm. split; [|split]; simpl.
  - by apply dict_set_NoDup.
  - intros f e Hget. destruct (decide (formula = f)) as [->|Hne].
    + rewrite dict_get_set_eq in Hget. injection Hget as <-. simpl.
      exists obj. by rewrite lookup_insert_eq.
    + rewrite dict_get_set_ne in Hget by done.
      destruct (Hent f e Hget) as (obj' & Hobj' & ? & ?).
      exists obj'. split; [|done]. rewrite lookup_insert_ne; [done|].
      intros ->. apply Hfresh. apply elem_of_dom. eauto.
  - intros r Hr. destruct (Hrs r Hr) as (? & ? & Hdom).
    split; [done|]. split; [done|]. intros c Hc.
    rewrite dom_insert. apply elem_of_union. right. by apply Hdom.
Qed.

Lemma registry_extends_refl (fs : list string) (st : State) :
  registry_extends fs st st.
Proof.
  split; [done|]. split; [done|]. split; [done|].
  intros f e H1 H2. congruence.
Qed.

Lemma registry_extends_trans (fs1 fs2 : list string) (st st1 st2 : State) :
  registry_extends fs1 st st1 -> registry_extends fs2 st1 st2 ->
  registry_extends (fs1 ++ fs2) st st2.
Proof.
  intros (Hr1 & Hd1 & Hk1 & Hn1) (Hr2 & Hd2 & Hk2 & Hn2).
  split; [congruence|]. split; [by etrans|]. split; [auto|].
  intros f e Hget Hnone.
  destruct (dict_get f (compounds (calculator st1))) as [e1|] eqn:H1.
  - pose proof (Hk2 f e1 H1) as H2. rewrite Hget in H2. injection H2 as ->.
    destruct (Hn1 f e1 H1 Hnone). split; [done|]. apply elem_of_app. auto.
  - destruct (Hn2 f e Hget H1). split; [done|]. apply elem_of_app. auto.
Qed.

Lemma add_compound_extends (formula : string) (name : option string)
    (concentration : float) (st st' : State) (o : objid) :
  registry_wf st ->
  dict_get formula (compounds (calculator st)) = None ->
  add_compound formula name concentration st = (Ok o, st') ->
  registry_wf st'
  /\ dict_get formula (compounds (calculator st'))
     = Some {| compound := o; concentration := concentration |}
  /\ (concentration = 0%float -> registry_extends [formula] st st').
Proof.
  intros Hwf Hnone Hadd.
  apply add_compound_inv in Hadd as (-> & obj & Hf & Hm & ->).
  split; [|split].
  - apply set_compounds_wf; [done|apply is_fresh|done|done].
  - simpl. apply dict_get_set_eq.
  - intros ->. split; [done|]. split; [|split]; simpl.
    + rewrite dom_insert. apply union_subseteq_r.
    + intros f e Hget. rewrite dict_get_set_ne; [done|]. congruence.
    + intros f e Hget Hnew. destruct (decide (formula = f)) as [->|Hne].
      * rewrite dict_get_set_eq in Hget. injection Hget as <-.
        split; [done|]. apply list_elem_of_singleton. done.
      * rewrite dict_get_set_ne in Hget by done. congruence.
Qed.

Lemma ensure_compound_spec (formula : string) (st st' : State)
    (r : result unit) :
  registry_wf st ->
  ensure_compound formula st = (r, st') ->
  registry_wf st'
  /\ registry_extends [formula] st st'
  /\ match r with
     | Ok _ => is_Some (dict_get formula (compounds (calculator st')))
     | Raise e =>
         dict_get formula (compounds (calculator st')) = None
         /\ e = if has_long_count formula then ValueError else OverflowError
     end.
Proof.
  intros Hwf. unfold ensure_compound, dict_mem.
  destruct (dict_get formula (compounds (calculator st))) as [e0|] eqn:Hget.
  - intros [= <- <-]. split; [done|]. split; [apply registry_extends_refl|].
    by rewrite Hget.
  - destruct (add_compound formula None 0 st) as [r0 st0] eqn:Hadd.
    intros [= <- <-]. destruct r0 as [o|e]; simpl.
    + destruct (add_compound_extends _ _ _ _ _ _ Hwf Hget Hadd)
        as (Hwf' & Hget' & Hext).
      split; [done|]. split; [by apply Hext|]. by rewrite Hget'.
    + apply add_compound_inv in Hadd as [-> ->].
      split; [done|]. split; [apply registry_extends_refl|done].
Qed.

(** Two entries with the same compound object are the same entry. *)
Lemma registry_compound_inj (st : State) (f1 f2 : string) (e1 e2 : entry) :
  registry_wf st ->
  dict_get f1 (compounds (calculator st)) = Some e1 ->
  dict_get f2 (compounds (calculator st)) = Some e2 ->
  compound e1 = compound e2 ->
  f1 = f2.
Proof.
  intros (_ & Hent & _) H1 H2 Heq.
  destruct (Hent f1 e1 H1) as (obj1 & Ho1 & <- & _).
  destruct (Hent f2 e2 H2) as (obj2 & Ho2 & <- & _).
  rewrite Heq in Ho1. congruence.
Qed.

Lemma build_side_spec (items : list (string * Z)) (side : list (objid * Z))
    (st st' : State) (r : result (list (objid * Z))) :
  registry_wf st ->
  build_side items side st = (r, st') ->
  registry_wf st'
  /\ registry_extends items.*1 st st'
  /\ match r with
     | Ok side' =>
         (forall f, f ∈ items.*1 ->
                    is_Some (dict_get f (compounds (calculator st'))))
         /\ (NoDup side.*1 -> NoDup side'.*1)
         /\ (forall f e,
               dict_get f (compounds (calculator st')) = Some e ->
               dict_get (compound e) side'
               = match last_value f items with
                 | Some k => Some k
                 | None => dict_get (compound e) side
                 end)
         /\ (forall c, c ∈ side'.*1 ->
                       c ∈ side.*1
                       \/ exists f e,
                            f ∈ items.*1
                            /\ dict_get f (compounds (calculator st')) = Some e
                            /\ compound e = c)
     | Raise e =>
         exists f, f ∈ items.*1
                   /\ dict_get f (compounds (calculator st')) = None
                   /\ e = if has_long_count f then ValueError
                          else OverflowError
     end.
Proof.
  revert side st st' r.
  induction items as [|[f0 k0] rest IH]; intros side st st' r Hwf H.
  - injection H as <- <-. split; [done|]. split; [apply registry_extends_refl|].
    split; [|split; [done|split; [done|auto]]].
    intros f Hin. by apply elem_of_nil in Hin.
  - cbn [build_side] in H.
    destruct (ensure_compound f0 st) as [r0 st1] eqn:He.
    destruct (ensure_compound_spec _ _ _ _ Hwf He) as (Hwf1 & Hext1 & Hr0).
    destruct r0 as [[]|e].
    2:{ injection H as <- <-. split; [done|]. split.
        - exact (registry_extends_trans [f0] rest.*1 st st1 st1 Hext1
                   (registry_extends_refl _ _)).
        - destruct Hr0 as [Hnone Hexn]. exists f0.
          split; [simpl; apply elem_of_cons; auto|done]. }
    destruct Hr0 as [e0 He0]. rewrite He0 in H.
    destruct (IH _ _ _ _ Hwf1 H) as (Hwf' & Hext' & Hr).
    split; [done|].
    split; [exact (registry_extends_trans [f0] rest.*1 _ _ _ Hext1 Hext')|].
    destruct r as [side'|e].
    2:{ destruct Hr as (f & Hf & Hnone & Hexn). exists f.
        split; [simpl; apply elem_of_cons; auto|done]. }
    destruct Hr as (Hreg & Hnd & Hget & Hkeys).
    destruct Hext' as (_ & _ & Hkeep & _).
    pose proof (Hkeep f0 e0 He0) as He0'.
    split; [|split; [|split]].
    + intros f Hin. simpl in Hin. apply elem_of_cons in Hin as [->|Hin]; eauto.
    + intros Hside. by apply Hnd, dict_set_NoDup.
    + intros f e Hfe. rewrite (Hget f e Hfe). simpl.
      destruct (last_value f rest) as [k|]; [done|].
      destruct (decide (f = f0)) as [->|Hne].
      * rewrite He0' in Hfe. injection Hfe as <-. apply dict_get_set_eq.
      * apply dict_get_set_ne. intros Heq. apply Hne. symmetry.
        by apply (registry_compound_inj st' f0 f e0 e).
    + intros c Hc. destruct (Hkeys c Hc) as [Hin|(f & e & Hf & Hfe & <-)].
      * apply dict_set_keys in Hin as [->|Hin]; [|by left].
        right. exists f0, e0. split; [|done]. simpl. apply elem_of_cons. by left.
      * right. exists f, e. split; [|done]. simpl. apply elem_of_cons. by right.
Qed.

Lemma registry_wf_init :
  registry_wf {| objects := ∅; calculator := __init__ |}.
Proof.
  split; [apply NoDup_nil_2|]. split; [done|].
  intros r Hr. by apply elem_of_nil in Hr.
Qed.

Lemma add_compound_wf (st : State) (formula : string) (name : option string)
    (concentration : float) :
  registry_wf st ->
  registry_wf (add_compound formula name concentration st).2.
Proof.
  intros Hwf.
  destruct (add_compound formula name concentration st) as [r st'] eqn:Hadd.
  apply add_compound_inv in Hadd. destruct r as [o|e]; simpl.
  - destruct Hadd as (-> & obj & Hf & Hm & ->).
    apply set_compounds_wf; [done|apply is_fresh|done|done].
  - by destruct Hadd as [-> _].
Qed.

Lemma add_reaction_wf (st : State) (rf : list string) (rc : list Z)
    (pf : list string) (pc : list Z) (k : float) :
  registry_wf st -> registry_wf (add_reaction rf rc pf pc k st).2.
Proof.
  intros Hwf. unfold add_reaction.
  destruct (build_side (zip rf rc) [] st) as [r1 st1] eqn:H1.
  destruct (build_side_spec _ _ _ _ _ Hwf H1) as (Hwf1 & Hext1 & Hr1).
  destruct r1 as [reactants|e]; [|done].
  destruct (build_side (zip pf pc) [] st1) as [r2 st2] eqn:H2.
  destruct (build_side_spec _ _ _ _ _ Hwf1 H2) as (Hwf2 & Hext2 & Hr2).
  destruct r2 as [products|e]; [|done]. simpl.
  destruct Hwf2 as (Hnd & Hent & Hrs). split; [done|]. split; [done|].
  simpl. intros r Hr. apply elem_of_app in Hr as [Hr|Hr]; [by apply Hrs|].
  apply list_elem_of_singleton in Hr as ->. simpl.
  destruct Hr1 as (_ & Hnd1 & _ & Hk1). destruct Hr2 as (_ & Hnd2 & _ & Hk2).
  split; [apply Hnd1, NoDup_nil_2|]. split; [apply Hnd2, NoDup_nil_2|].
  destruct Hext2 as (_ & Hdom & Hkeep & _).
  intros c [Hc|Hc].
  - destruct (Hk1 c Hc) as [Hin|(f & e & _ & Hfe & <-)];
      [by apply elem_of_nil in Hin|].
    destruct (Hent f e (Hkeep f e Hfe)) as (obj & Hobj & _).
    apply elem_of_dom. eauto.
  - destruct (Hk2 c Hc) as [Hin|(f & e & _ & Hfe & <-)];
      [by apply elem_of_nil in Hin|].
    destruct (Hent f e Hfe) as (obj & Hobj & _).
    apply elem_of_dom. eauto.
Qed.

(** The invariant of the registry holds for a new calculator and is kept
    by [add_compound] and by [add_reaction], whether they return or raise:
    the registry is a dictionary, every entry holds an existing compound
    object of its formula with the molar mass computed, and the sides of
    every reaction are dictionaries over existing compound objects. *)
Theorem registry_wf_kept :
  registry_wf {| objects := ∅; calculator := __init__ |}
  /\ (forall st formula name concentration,
        registry_wf st ->
        registry_wf (add_compound formula name concentration st).2)
  /\ (forall st reactant_formulas reactant_coeffs product_formulas
              product_coeffs rate_constant,
        registry_wf st ->
        registry_wf (add_reaction reactant_formulas reactant_coeffs
                                  product_formulas product_coeffs
                                  rate_constant st).2).
Proof.
  split; [apply registry_wf_init|]. split.
  - intros. by apply add_compound_wf.
  - intros. by apply add_reaction_wf.
Qed.
End Registry.

Section AddReaction.
Import chem_calculator trace spec.

Lemma fst_zip_take {A B} (l : list A) (k : list B) :
  (zip l k).*1 = take (length k) l.
Proof.
  revert k. induction l as [|a l IH]; intros [|b k]; simpl; try done.
  by rewrite IH.
Qed.

Lemma add_reaction_inv (reactant_formulas : list string)
    (reactant_coeffs : list Z) (product_formulas : list string)
    (product_coeffs : list Z) (rate_constant : float) (st st' : State)
    (r : result reaction.Reaction) :
  add_reaction reactant_formulas reactant_coeffs product_formulas
               product_coeffs rate_constant st = (r, st') ->
  exists r1 st1 r2 st2,
    build_side (zip reactant_formulas reactant_coeffs) [] st = (r1, st1)
    /\ match r1 with
       | Raise e => r = Raise e /\ st' = st1
       | Ok reactants =>
           build_side (zip product_formulas product_coeffs) [] st1 = (r2, st2)
           /\ match r2 with
              | Raise e => r = Raise e /\ st' = st2
              | Ok products =>
                  r = Ok {| reaction.reactants := reactants;
                            reaction.products := products;
                            reaction.rate_constant := rate_constant;
                            reaction.reaction_order := 1 |}
                  /\ objects st' = objects st2
                  /\ compounds (calculator st') = compounds (calculator st2)
                  /\ reactions (calculator st')
                     = reactions (calculator st2)
                         ++ [{| reaction.reactants := reactants;
                                reaction.products := products;
                                reaction.rate_constant := rate_constant;
                                reaction.reaction_order := 1 |}]
              end
       end.
Proof.
  unfold add_reaction.
  destruct (build_side (zip reactant_formulas reactant_coeffs) [] st)
    as [r1 st1] eqn:H1.
  destruct r1 as [reactants|e].
  - destruct (build_side (zip product_formulas product_coeffs) [] st1)
      as [r2 st2] eqn:H2.
    destruct r2 as [products|e]; intros [= <- <-].
    + exists (Ok reactants), st1, (Ok products), st2. repeat split; done.
    + exists (Ok reactants), st1, (Raise e), st2. repeat split; done.
  - intros [= <- <-]. exists (Raise e), st1, (Raise e), st1. repeat split; done.
Qed.

(** [add_reaction] and the registry. Entries already in the registry keep
    their compound object and concentration; an entry that is new is for a
    formula of the call (one that has a coefficient: formulas beyond the
    length of the coefficient list are ignored) and has concentration 0.0.
    When the call returns, every such formula is registered and the
    reaction is appended to the reactions. When it raises, the reactions
    are unchanged and compounds registered before the failure stay
    registered; the exception comes from a formula of the call that is
    still unregistered: [ValueError] when one of its counts has more
    digits than [int] converts, [OverflowError] otherwise. *)
Theorem add_reaction_registry (reactant_formulas : list string)
    (reactant_coeffs : list Z) (product_formulas : list string)
    (product_coeffs : list Z) (rate_constant : float) (st st' : State)
    (r : result reaction.Reaction) :
  registry_wf st ->
  add_reaction reactant_formulas reactant_coeffs product_formulas
               product_coeffs rate_constant st = (r, st') ->
  let used := take (length reactant_coeffs) reactant_formulas
              ++ take (length product_coeffs) product_formulas in
  (forall f e, dict_get f (compounds (calculator st)) = Some e ->
               dict_get f (compounds (calculator st')) = Some e)
  /\ (forall f e, dict_get f (compounds (calculator st')) = Some e ->
                  dict_get f (compounds (calculator st)) = None ->
                  concentration e = 0%float /\ f ∈ used)
  /\ match r with
     | Ok reaction =>
         reactions (calculator st') = reactions (calculator st) ++ [reaction]
         /\ (forall f, f ∈ used ->
                       is_Some (dict_get f (compounds (calculator st'))))
     | Raise e =>
         reactions (calculator st') = reactions (calculator st)
         /\ exists f, f ∈ used
                      /\ dict_get f (compounds (calculator st')) = None
                      /\ e = if has_long_count f then ValueError
                             else OverflowError
     end.
Proof.
  intros Hwf Hadd used. subst used. rewrite <- !fst_zip_take.
  apply add_reaction_inv in Hadd as (r1 & st1 & r2 & st2 & H1 & Hrest).
  destruct (build_side_spec _ _ _ _ _ Hwf H1) as (Hwf1 & Hext1 & Hr1).
  destruct r1 as [reactants|e].
  2:{ destruct Hrest as [-> ->]. destruct Hext1 as (Hrs & _ & Hkeep & Hnew).
      split; [done|]. split.
      - intros f e' Hfe Hnone. destruct (Hnew f e' Hfe Hnone).
        split; [done|]. apply elem_of_app. auto.
      - split; [done|]. destruct Hr1 as (f & Hf & Hnone & Hexn).
        exists f. split; [apply elem_of_app; auto|done]. }
  destruct Hrest as [H2 Hrest].
  destruct (build_side_spec _ _ _ _ _ Hwf1 H2) as (Hwf2 & Hext2 & Hr2).
  pose proof (registry_extends_trans _ _ _ _ _ Hext1 Hext2)
    as (Hrs & _ & Hkeep & Hnew).
  destruct r2 as [products|e].
  - destruct Hrest as (-> & _ & Hc & Hr). rewrite Hc, Hr, Hrs.
    split; [done|]. split; [done|]. split; [done|].
    destruct Hr1 as (Hreg1 & _). destruct Hr2 as (Hreg2 & _).
    destruct Hext2 as (_ & _ & Hkeep2 & _).
    intros f [Hf|Hf]%elem_of_app; [|by apply Hreg2].
    destruct (Hreg1 f Hf) as [e He]. exists e. by apply Hkeep2.
  - destruct Hrest as [-> ->]. split; [done|]. split; [done|].
    split; [done|]. destruct Hr2 as (f & Hf & Hnone & Hexn).
    exists f. split; [apply elem_of_app; auto|done].
Qed.

(** The reaction built by [add_reaction]. Both sides are dictionaries keyed
    by the registered compound objects: the compound of a formula maps to
    the last coefficient paired with that formula (a formula listed twice
    keeps only its last coefficient; a formula or coefficient beyond the
    shorter list is dropped), and every key is the compound of such a
    formula. The rate constant is the one given and the order is 1. *)
Theorem add_reaction_sides (reactant_formulas : list string)
    (reactant_coeffs : list Z) (product_formulas : list string)
    (product_coeffs : list Z) (rate_constant : float) (st st' : State)
    (r : reaction.Reaction) :
  registry_wf st ->
  add_reaction reactant_formulas reactant_coeffs product_formulas
               product_coeffs rate_constant st = (Ok r, st') ->
  reaction.rate_constant r = rate_constant
  /\ reaction.reaction_order r = 1
  /\ NoDup (dict_keys (reaction.reactants r))
  /\ NoDup (dict_keys (reaction.products r))
  /\ (forall f e,
        dict_get f (compounds (calculator st')) = Some e ->
        dict_get (compound e) (reaction.reactants r)
        = last_value f (zip reactant_formulas reactant_coeffs)
        /\ dict_get (compound e) (reaction.products r)
           = last_value f (zip product_formulas product_coeffs))
  /\ (forall c, c ∈ dict_keys (reaction.reactants r)
                \/ c ∈ dict_keys (reaction.products r) ->
                exists f e,
                  dict_get f (compounds (calculator st')) = Some e
                  /\ compound e = c).
Proof.
  intros Hwf Hadd.
  apply add_reaction_inv in Hadd as (r1 & st1 & r2 & st2 & H1 & Hrest).
  destruct (build_side_spec _ _ _ _ _ Hwf H1) as (Hwf1 & Hext1 & Hr1).
  destruct r1 as [reactants|e]; [|by destruct Hrest].
  destruct Hrest as [H2 Hrest].
  destruct (build_side_spec _ _ _ _ _ Hwf1 H2) as (Hwf2 & Hext2 & Hr2).
  destruct r2 as [products|e]; [|by destruct Hrest].
  destruct Hrest as ([= ->] & _ & Hc & _). rewrite Hc. simpl.
  destruct Hr1 as (Hreg1 & Hnd1 & Hget1 & Hk1).
  destruct Hr2 as (Hreg2 & Hnd2 & Hget2 & Hk2).
  destruct Hext2 as (_ & _ & Hkeep2 & _).
  assert (forall c, c ∈ dict_keys reactants ->
            exists f e, f ∈ (zip reactant_formulas reactant_coeffs).*1
                        /\ dict_get f (compounds (calculator st1)) = Some e
                        /\ compound e = c) as Hk1'.
  { intros c Hin. destruct (Hk1 c Hin) as [Hnil|?]; [|done].
    by apply elem_of_nil in Hnil. }
  split; [done|]. split; [done|].
  split; [apply Hnd1, NoDup_nil_2|]. split; [apply Hnd2, NoDup_nil_2|].
  split.
  - intros f e Hfe. split.
    + destruct (dict_get f (compounds (calculator st1))) as [e1|] eqn:Hf1.
      * pose proof (Hkeep2 f e1 Hf1) as Hfe'. rewrite Hfe in Hfe'.
        injection Hfe' as ->. rewrite (Hget1 f e1 Hf1).
        by destruct (last_value f _).
      * assert (last_value f (zip reactant_formulas reactant_coeffs) = None)
          as ->.
        { apply last_value_None. intros Hin.
          destruct (Hreg1 f Hin) as [? ?]. congruence. }
        apply dict_get_None. intros Hin.
        destruct (Hk1' _ Hin) as (f1 & e1 & _ & Hf1e & Heq).
        pose proof (registry_compound_inj st2 f1 f e1 e Hwf2
                      (Hkeep2 _ _ Hf1e) Hfe Heq) as ->.
        congruence.
    + rewrite (Hget2 f e Hfe). by destruct (last_value f _).
  - intros c [Hin|Hin].
    + destruct (Hk1' c Hin) as (f & e & _ & Hfe & Heq).
      exists f, e. split; [by apply Hkeep2|done].
    + destruct (Hk2 c Hin) as [Hnil|(f & e & _ & Hfe & Heq)];
        [by apply elem_of_nil in Hnil|].
      by exists f, e.
Qed.
End AddReaction.

(** ** simulate_reactions over the registry *)

Section SimulateReactions.
Import chem_calculator trace spec.
Variable libm_pow : float -> float -> result float.
Variable np_linspace : float -> Z -> result (list float).

Lemma initial_lookup_absent (comps : list (string * entry))
    (d : gmap objid float) (c : objid) :
  (forall f e, (f, e) ∈ comps -> compound e <> c) ->
  fold_left (fun d '(_, data) => <[compound data := concentration data]> d)
            comps d !! c
  = d !! c.
Proof.
  revert d. induction comps as [|[f0 e0] comps IH]; intros d Hno; simpl; [done|].
  rewrite IH.
  - apply lookup_insert_ne. apply (Hno f0). apply elem_of_cons. by left.
  - intros f e Hin. apply (Hno f). apply elem_of_cons. by right.
Qed.

Lemma initial_lookup_present (comps : list (string * entry))
    (d : gmap objid float) (c : objid) (x : float) :
  (exists f e, (f, e) ∈ comps /\ compound e = c) ->
  (forall f e, (f, e) ∈ comps -> compound e = c -> concentration e = x) ->
  fold_left (fun d '(_, data) => <[compound data := concentration data]> d)
            comps d !! c
  = Some x.
Proof.
  revert d. induction comps as [|[f0 e0] comps IH]; intros d Hex Hall; simpl.
  - destruct Hex as (f & e & Hin & _). by apply elem_of_nil in Hin.
  - destruct (decide (Exists (fun p => compound p.2 = c) comps)) as [Hlater|Hno].
    + apply IH.
      * apply Exists_exists in Hlater as ([f e] & Hin & Heq). eauto.
      * intros f e Hin. apply (Hall f). apply elem_of_cons. by right.
    + rewrite initial_lookup_absent.
      2:{ intros f e Hin Heq. apply Hno, Exists_exists. by exists (f, e). }
      destruct Hex as (f & e & Hin & Heq).
      apply elem_of_cons in Hin as [[= -> ->]|Hin].
      * rewrite <- Heq, lookup_insert_eq. f_equal. apply (Hall f0).
        -- apply elem_of_cons. by left.
        -- done.
      * exfalso. apply Hno, Exists_exists. by exists (f, e).
Qed.

Lemma simulate_reactions_inv (self : ChemicalCalculator) (time_end : float)
    (time_steps : Z) (tps : list float) (res : gmap objid (list float)) :
  simulate_reactions libm_pow np_linspace self time_end time_steps
  = Ok (tps, res) ->
  np_linspace time_end time_steps = Ok tps
  /\ reaction.simulate libm_pow (reaction.ReactionSystem_init (reactions self))
       (fold_left (fun d '(_, data) => <[compound data := concentration data]> d)
                  (compounds self) ∅)
       tps
     = Ok res.
Proof.
  unfold simulate_reactions. destruct (reactions self) as [|r rs]; [done|].
  destruct (np_linspace time_end time_steps) as [tps'|]; simpl; [|done].
  destruct (reaction.simulate _ _ _ _) as [res'|] eqn:Hsim; simpl; [|done].
  by intros [= <- <-].
Qed.

Lemma first_entry (rs : list reaction.Reaction) (initial : gmap objid float)
    (tps : list float) (res : gmap objid (list float)) (c : objid)
    (traj : list float) :
  reaction.simulate libm_pow (reaction.ReactionSystem_init rs) initial tps
  = Ok res ->
  res !! c = Some traj ->
  c ∈ reaction.all_compounds (reaction.ReactionSystem_init rs)
  /\ length traj = Nat.max 1 (length tps)
  /\ traj !! 0%nat = Some (default 0%float (initial !! c)).
Proof.
  intros Hsim Hc. apply simulate_inv in Hsim as (rows & -> & Hlen & _).
  rewrite lookup_columns in Hc.
  destruct (decide (c ∈ _)) as [Hin|]; [|done]. injection Hc as <-.
  split; [done|]. simpl. rewrite length_fmap, Hlen. split; [lia|].
  unfold conc_of at 1, first_row. by rewrite lookup_keyed, decide_True.
Qed.

Lemma simulate_reactions_first (st : State) (time_end : float)
    (time_steps : Z) (tps : list float) (res : gmap objid (list float))
    (c : objid) (traj : list float) :
  registry_wf st ->
  simulate_reactions libm_pow np_linspace (calculator st) time_end time_steps
  = Ok (tps, res) ->
  res !! c = Some traj ->
  np_linspace time_end time_steps = Ok tps
  /\ length traj = Nat.max 1 (length tps)
  /\ (forall f e, dict_get f (compounds (calculator st)) = Some e ->
                  compound e = c ->
                  traj !! 0%nat = Some (concentration e))
  /\ ((forall f e, dict_get f (compounds (calculator st)) = Some e ->
                   compound e <> c) ->
      traj !! 0%nat = Some 0%float).
Proof.
  intros Hwf Hsim Hc. apply simulate_reactions_inv in Hsim as [Hlin Hsim].
  destruct (first_entry _ _ _ _ _ _ Hsim Hc) as (_ & Hlen & Hfirst).
  split; [done|]. split; [done|]. rewrite Hfirst.
  pose proof Hwf as (Hnd & _ & _). split.
  - intros f e Hfe Heq. f_equal.
    rewrite (initial_lookup_present _ _ c (concentration e)); [done| |].
    + exists f, e. split; [by apply dict_get_elem_of|done].
    + intros f' e' Hin' Heq'. apply (elem_of_dict_get _ _ _ Hnd) in Hin'.
      assert (f' = f) as ->
        by (apply (registry_compound_inj st f' f e' e); congruence).
      congruence.
  - intros Hno. rewrite initial_lookup_absent; [by rewrite lookup_empty|].
    intros f e Hin. apply (Hno f). by apply elem_of_dict_get.
Qed.

(** The trajectory of a compound starts at the concentration of the
    registry entry that holds that very compound object, and at 0.0 when no
    entry holds it; the time points are those of [np.linspace]. *)
Theorem simulate_reactions_start (st : State) (time_end : float)
    (time_steps : Z) (tps : list float) (res : gmap objid (list float))
    (c : objid) (traj : list float) :
  registry_wf st ->
  simulate_reactions libm_pow np_linspace (calculator st) time_end time_steps
  = Ok (tps, res) ->
  res !! c = Some traj ->
  np_linspace time_end time_steps = Ok tps
  /\ length traj = Nat.max 1 (length tps)
  /\ (forall f e, dict_get f (compounds (calculator st)) = Some e ->
                  compound e = c ->
                  traj !! 0%nat = Some (concentration e))
  /\ ((forall f e, dict_get f (compounds (calculator st)) = Some e ->
                   compound e <> c) ->
      traj !! 0%nat = Some 0%float).
Proof. apply simulate_reactions_first. Qed.

(** Adding a compound under a formula that is already registered replaces
    the entry by a new compound object. The reactions still hold the old
    object: in a later simulation the new object has no trajectory, and the
    old one starts from 0.0 whatever concentrations were given. *)
Theorem readded_compound_is_detached (st st' : State) (formula : string)
    (name : option string) (concentration : float) (old : entry) (o : objid)
    (time_end : float) (time_steps : Z) (tps : list float)
    (res : gmap objid (list float)) :
  registry_wf st ->
  dict_get formula (compounds (calculator st)) = Some old ->
  add_compound formula name concentration st = (Ok o, st') ->
  simulate_reactions libm_pow np_linspace (calculator st') time_end time_steps
  = Ok (tps, res) ->
  o <> compound old
  /\ dict_get formula (compounds (calculator st'))
     = Some {| compound := o; concentration := concentration |}
  /\ res !! o = None
  /\ (forall traj, res !! compound old = Some traj ->
                   traj !! 0%nat = Some 0%float).
Proof.
  intros Hwf Hold Hadd Hsim.
  pose proof Hwf as (Hnd & Hent & Hrs).
  pose proof Hadd as Hinv.
  apply add_compound_inv in Hinv as (Ho & obj & Hf & Hm & Hst').
  assert (o ∉ dom (objects st)) as Hfresh by (rewrite Ho; apply is_fresh).
  assert (registry_wf st') as Hwf'
    by (rewrite Hst'; by apply set_compounds_wf).
  assert (compound old ∈ dom (objects st)) as Hdom.
  { destruct (Hent _ _ Hold) as (obj0 & Hobj0 & _). apply elem_of_dom. eauto. }
  assert (o <> compound old) as Hne by (intros ->; done).
  assert (forall f e, dict_get f (compounds (calculator st')) = Some e ->
            compound e <> compound old) as Hno.
  { intros f e Hfe. rewrite Hst' in Hfe. simpl in Hfe.
    destruct (decide (formula = f)) as [->|Hnf].
    - rewrite dict_get_set_eq in Hfe. by injection Hfe as <-.
    - rewrite dict_get_set_ne in Hfe by done. intros Heq. apply Hnf.
      by apply (registry_compound_inj st formula f old e). }
  split; [done|]. split; [rewrite Hst'; apply dict_get_set_eq|]. split.
  - destruct (res !! o) as [traj|] eqn:Hres; [|done]. exfalso.
    apply simulate_reactions_inv in Hsim as [_ Hsim].
    destruct (first_entry _ _ _ _ _ _ Hsim Hres) as (Hin & _).
    apply init_all_compounds in Hin as (r & Hr & Hc).
    rewrite Hst' in Hr. simpl in Hr.
    destruct (Hrs r Hr) as (_ & _ & Hobjs). by apply Hfresh, Hobjs.
  - intros traj Htraj.
    by destruct (simulate_reactions_first st' _ _ _ _ _ _ Hwf' Hsim Htraj)
      as (_ & _ & _ & H0); apply H0.
Qed.
End SimulateReactions.

(** ** The default example, step by step *)

Section DefaultExample.
Import reaction chem_calculator trace spec examples.

Lemma main_compounds_wf : registry_wf main_compounds.
Proof. do 3 apply add_compound_wf. apply registry_wf_init. Qed.

Lemma main_default_wf : registry_wf main_default.2.
Proof. apply add_reaction_wf, main_compounds_wf. Qed.

Example main_default_reaction : main_default.1 = Ok a_plus_b.
Proof. vm_compute. reflexivity. Qed.

Example main_default_calculator : calculator main_default.2 = calculator_ab.
Proof. vm_compute. reflexivity. Qed.

Lemma add_reaction_registry_witness :
  reactions (calculator main_default.2)
  = reactions (calculator main_compounds) ++ [a_plus_b]
  /\ is_Some (dict_get "B"%string (compounds (calculator main_default.2))).
Proof.
  pose proof (add_reaction_registry ["A"%string; "B"%string] [1; 1] ["C"%string] [1] 0.1
                main_compounds main_default.2 (Ok a_plus_b) main_compounds_wf)
    as H.
  destruct H as (_ & _ & Hr & Hreg); [vm_compute; reflexivity|].
  split; [exact Hr|]. apply Hreg. vm_compute.
  apply elem_of_cons. right. apply elem_of_cons. by left.
Defined.

Lemma add_reaction_sides_witness :
  dict_get A (reactants a_plus_b) = last_value "A"%string (zip ["A"%string; "B"%string] [1; 1])
  /\ dict_get A (products a_plus_b) = last_value "A"%string (zip ["C"%string] [1]).
Proof.
  pose proof (add_reaction_sides ["A"%string; "B"%string] [1; 1] ["C"%string] [1] 0.1
                main_compounds main_default.2 a_plus_b main_compounds_wf)
    as H.
  destruct H as (_ & _ & _ & _ & Hget & _); [vm_compute; reflexivity|].
  apply (Hget "A"%string {| compound := A; concentration := 1 |}).
  vm_compute. reflexivity.
Defined.

Lemma simulate_reactions_start_witness :
  match simulate_reactions pow_small linspace_small (calculator main_default.2)
          2 3 with
  | Ok (tps, res) =>
      match res !! B with
      | Some traj => traj !! 0%nat = Some 0.5%float
      | None => False
      end
  | Raise _ => False
  end.
Proof.
  destruct (simulate_reactions pow_small linspace_small
              (calculator main_default.2) 2 3) as [[tps res]|e] eqn:Hsim.
  - destruct (res !! B) as [traj|] eqn:Hres.
    + destruct (simulate_reactions_start pow_small linspace_small
                  main_default.2 2 3 tps res B traj main_default_wf Hsim Hres)
        as (_ & _ & Hentry & _).
      apply (Hentry "B"%string {| compound := B; concentration := 0.5 |});
        vm_compute; reflexivity.
    + vm_compute in Hsim. injection Hsim as <- <-. vm_compute in Hres.
      discriminate.
  - vm_compute in Hsim. discriminate.
Defined.

Example main_readded_object : main_readded.1 = Ok D.
Proof. vm_compute. reflexivity. Qed.

Lemma readded_compound_is_detached_witness :
  match simulate_reactions pow_small linspace_small (calculator main_readded.2)
          2 3 with
  | Ok (tps, res) =>
      res !! D = None
      /\ (forall traj, res !! A = Some traj -> traj !! 0%nat = Some 0%float)
  | Raise _ => False
  end.
Proof.
  destruct (simulate_reactions pow_small linspace_small
              (calculator main_readded.2) 2 3) as [[tps res]|e] eqn:Hsim.
  - destruct (readded_compound_is_detached pow_small linspace_small
                main_default.2 main_readded.2 "A"%string None 2
                {| compound := A; concentration := 1 |} D 2 3 tps res
                main_default_wf) as (_ & _ & Hnew & Hold);
      [vm_compute; reflexivity|vm_compute; reflexivity|exact Hsim|].
    split; [exact Hnew|exact Hold].
  - vm_compute in Hsim. discriminate.
Defined.

Example readded_trajectories :
  match simulate_reactions pow_small linspace_small (calculator main_readded.2)
          2 3 with
  | Ok (_, res) => res !! A = Some [0; 0; 0]%float
                   /\ res !! C = Some [0; 0; 0]%float
  | Raise _ => False
  end.
Proof. vm_compute. split; reflexivity. Qed.

Lemma simulate_prefix_witness :
  match simulate pow_small system_ab initial_ab ([0; 1]%float ++ [2%float]) with
  | Ok res =>
      exists res',
        simulate pow_small system_ab initial_ab [0; 1]%float = Ok res'
        /\ forall c, res' !! c = take (Nat.max 1 2) <$> res !! c
  | Raise _ => False
  end.
Proof.
  destruct (simulate pow_small system_ab initial_ab ([0; 1]%float ++ [2%float]))
    as [res|e] eqn:Hsim.
  - exact (simulate_prefix pow_small [a_plus_b] initial_ab [0; 1]%float
             [2%float] res Hsim).
  - vm_compute in Hsim. discriminate.
Defined.

Lemma rate_at_simulated_state_witness :
  match simulate pow_small system_ab initial_ab [0; 1; 2]%float with
  | Ok res =>
      dom (state_at res 1) = all_compounds system_ab
      /\ calculate_rate pow_small a_plus_b (state_at res 1)
         = rate_law pow_small a_plus_b (conc_of (state_at res 1))
  | Raise _ => False
  end.
Proof.
  destruct (simulate pow_small system_ab initial_ab [0; 1; 2]%float)
    as [res|e] eqn:Hsim.
  - apply (rate_at_simulated_state pow_small [a_plus_b] initial_ab
             [0; 1; 2]%float res 1 a_plus_b Hsim).
    + simpl. lia.
    + apply list_elem_of_singleton. reflexivity.
  - vm_compute in Hsim. discriminate.
Defined.
End DefaultExample.

(** ** Tokens and uppercase letters *)

Section Tokens.
Import chemical_compound spec.

#[local] Arguments match_token : simpl never.

Lemma digit_not_upper (c : ascii) : is_digit c = true -> is_upper c = false.
Proof.
  unfold is_digit, is_upper, in_range.
  intros [_ Hhi]%andb_true_iff. apply N.leb_le in Hhi.
  apply andb_false_iff. left. apply N.leb_gt. lia.
Qed.

Lemma lower_not_upper (c : ascii) : is_lower c = true -> is_upper c = false.
Proof.
  unfold is_lower, is_upper, in_range.
  intros [Hlo _]%andb_true_iff. apply N.leb_le in Hlo.
  apply andb_false_iff. right. apply N.leb_gt. lia.
Qed.

Lemma no_upper_in_digits (s : string) :
  no_upper_in_first (String.length (take_digits s)) s = true.
Proof.
  induction s as [|c s IH]; simpl; [done|].
  destruct (is_digit c) eqn:Hc; simpl; [|done].
  by rewrite (digit_not_upper _ Hc), IH.
Qed.

Lemma findall_from_length (skip : nat) (s : string) :
  no_upper_in_first skip s = true ->
  length (findall_from skip s) = count_upper s.
Proof.
  revert skip. induction s as [|c rest IH]; intros skip Hskip; [done|].
  cbn [findall_from count_upper]. destruct skip as [|k].
  - unfold match_token. destruct (is_upper c) eqn:Hc; [|by apply (IH 0%nat)].
    destruct rest as [|c2 s2].
    + reflexivity.
    + destruct (is_lower c2) eqn:Hc2; cbn [length]; f_equal; apply IH.
      * replace (String.length (String c (String c2 EmptyString))
                 + String.length (take_digits s2) - 1)%nat
          with (S (String.length (take_digits s2)))
          by (cbn [String.length]; lia).
        cbn [no_upper_in_first]. rewrite (lower_not_upper _ Hc2).
        apply no_upper_in_digits.
      * replace (String.length (String c EmptyString)
                 + String.length (take_digits (String c2 s2)) - 1)%nat
          with (String.length (take_digits (String c2 s2)))
          by (cbn [String.length]; lia).
        apply no_upper_in_digits.
  - cbn [no_upper_in_first] in Hskip.
    apply andb_true_iff in Hskip as [Hc Hk]. apply negb_true_iff in Hc.
    rewrite Hc. by apply IH.
Qed.

(** Every uppercase letter of the formula starts one token and nothing else
    does: the formula has as many tokens as uppercase letters, so
    parentheses, signs and spaces are skipped without an error and a count
    behind a closing parenthesis is dropped. *)
Theorem tokens_are_uppercase_letters (formula : string) :
  length (findall formula) = count_upper formula
  /\ Forall (fun m => token_shape m.1 /\ all_chars is_digit m.2 = true)
            (findall formula).
Proof.
  split; [by apply findall_from_length|].
  apply Forall_and. split;
    [apply findall_from_shape|apply findall_from_digits].
Qed.

Example parse_calcium_hydroxide :
  _parse_formula "Ca(OH)2" = Ok [("Ca", 1); ("O", 1); ("H", 1)]%string.
Proof. reflexivity. Qed.
End Tokens.

(** ** add_compound *)

Section AddCompound.
Import chem_calculator trace spec.

Lemma dict_set_keys_order {K V} `{EqDecision K} (d : list (K * V)) (k : K)
    (v : V) :
  dict_keys (dict_set k v d)
  = if dict_mem k d then dict_keys d else dict_keys d ++ [k].
Proof.
  unfold dict_mem, dict_keys. induction d as [|[k0 v0] d IH]; simpl; [done|].
  destruct (decide (k = k0)) as [->|Hne]; simpl; [done|].
  change (list_fmap (K * V)%type K fst (dict_set k v d))
    with (dict_set k v d).*1.
  rewrite IH. by destruct (dict_get k d).
Qed.

(** [add_compound] either raises and leaves the calculator as it was
    ([ValueError] from the constructor when a count of the formula has more
    digits than [int] converts, [OverflowError] from the molar mass
    otherwise), or returns a compound object that did not exist before,
    with the given formula and its molar mass computed, and registers it
    under the formula with the given concentration: a previous entry of the
    formula is replaced in place, a new formula goes last, and the entries
    of the other formulas and the reactions are untouched. *)
Theorem add_compound_spec (formula : string) (name : option string)
    (concentration : float) (st st' : State) (r : result objid) :
  add_compound formula name concentration st = (r, st') ->
  match r with
  | Ok o =>
      (o ∉ dom (objects st))
      /\ (exists self obj m,
            chemical_compound.__init__ formula name None = Ok self
            /\ chemical_compound.calculate_molar_mass self = Ok (m, obj)
            /\ objects st' !! o = Some obj
            /\ chemical_compound.formula obj = formula
            /\ chemical_compound.molar_mass obj = Some m)
      /\ dict_get formula (compounds (calculator st'))
         = Some {| compound := o; concentration := concentration |}
      /\ (forall f, f <> formula ->
                    dict_get f (compounds (calculator st'))
                    = dict_get f (compounds (calculator st)))
      /\ dict_keys (compounds (calculator st'))
         = (if dict_mem formula (compounds (calculator st))
            then dict_keys (compounds (calculator st))
            else dict_keys (compounds (calculator st)) ++ [formula])
      /\ reactions (calculator st') = reactions (calculator st)
      /\ (forall o', o' <> o -> objects st' !! o' = objects st !! o')
  | Raise e =>
      st' = st
      /\ e = (if has_long_count formula then ValueError else OverflowError)
      /\ (e = ValueError
          <-> chemical_compound.__init__ formula name None = Raise ValueError)
  end.
Proof.
  unfold add_compound.
  destruct (chemical_compound.__init__ formula name None) as [self|e]
    eqn:Hinit.
  - pose proof (init_Ok _ _ _ _ Hinit) as (Hf0 & _ & _ & _ & Hshort).
    destruct (chemical_compound.calculate_molar_mass self) as [[m obj]|e]
      eqn:Hcall.
    + intros [= <- <-]. simpl.
      pose proof (calculate_molar_mass_Ok_inv _ _ _ Hcall) as [Hf Hm].
      split; [apply is_fresh|]. split.
      { exists self, obj, m. rewrite lookup_insert_eq. by rewrite Hf. }
      split; [apply dict_get_set_eq|]. split.
      { intros f Hne. by apply dict_get_set_ne. }
      split; [|split; [done|]].
      * apply dict_set_keys_order.
      * intros o' Hne. by apply lookup_insert_ne.
    + intros [= <- <-]. split; [done|]. rewrite Hshort.
      apply (calculate_molar_mass_init_Raise _ _ _ _ _ Hinit) in Hcall as ->.
      split; [done|]. split; discriminate.
  - intros [= <- <-]. split; [done|].
    apply init_Raise in Hinit as [-> ->]. done.
Qed.

Lemma add_compound_spec_witness :
  dict_get "A"%string (compounds (calculator examples.main_readded.2))
  = Some {| compound := examples.D; concentration := 2 |}
  /\ dict_keys (compounds (calculator examples.main_readded.2))
     = dict_keys (compounds (calculator examples.main_default.2)).
Proof.
  pose proof (add_compound_spec "A"%string None 2 examples.main_default.2
                examples.main_readded.2 (Ok examples.D)) as H.
  destruct H as (_ & _ & Hget & _ & Hkeys & _); [vm_compute; reflexivity|].
  split; [exact Hget|exact Hkeys].
Defined.

Example add_compound_long_count :
  add_compound examples.long_count_formula None 0 examples.new_state
  = (Raise ValueError, examples.new_state).
Proof. vm_compute. reflexivity. Qed.

Example add_compound_huge_count :
  add_compound examples.huge_count_formula None 0 examples.new_state
  = (Raise OverflowError, examples.new_state).
Proof. vm_compute. reflexivity. Qed.

Example add_reaction_long_count :
  (add_reaction [examples.long_count_formula] [1] ["C"%string] [1] 1
                examples.new_state).1
  = Raise ValueError.
Proof. vm_compute. reflexivity. Qed.


End AddCompound.
